(** * cache_benchmark: a shallow embedding of the memory-latency benchmark

    The development follows [cursor/benchmarks/cache_benchmark.py].
    Python integers are unbounded, so they are [Z]; [//] is floor
    division, which is [Z.div]; [^] and [<<] are [Z.lxor] and [Z.shiftl].
    A [float] that is the quotient of two integers is a rational ([Q]);
    [float("nan")] is a constructor of its own.  Exceptions, the clock, the
    allocator and the two output streams are explicit: a computation is a
    function from a [World] to a result and a new [World]. *)

From Stdlib Require Import String.
From Stdlib Require Import ZArith List Lia Bool QArith.
From Stdlib Require Import Sorting.Mergesort Sorting.Permutation Sorting.Sorted.
From Stdlib Require Import Orders.
From Stdlib Require DecimalString.
From Stdlib Require Import Lqa.
Import ListNotations.
Local Open Scope Z_scope.

(** ** Python's [range] *)

Module PyRange.

(** [for i in range(start, stop, step)] with [step > 0]: the values
    [start, start+step, ...] that are below [stop].  The recursion is on a
    bound on the number of values, [stop - start] is enough. *)
Fixpoint range_up (fuel : nat) (i stop step : Z) : list Z :=
  match fuel with
  | O => []
  | S fuel' => if i <? stop then i :: range_up fuel' (i + step) stop step else []
  end.

(** The same with [step < 0]: the values above [stop]. *)
Fixpoint range_down (fuel : nat) (i stop step : Z) : list Z :=
  match fuel with
  | O => []
  | S fuel' => if stop <? i then i :: range_down fuel' (i + step) stop step else []
  end.

(** [range(start, stop)]. *)
Definition range2 (start stop : Z) : list Z :=
  range_up (Z.to_nat (stop - start)) start stop 1.

(** [range(start, stop, step)]; [None] is the [ValueError] of a zero step. *)
Definition range3 (start stop step : Z) : option (list Z) :=
  if step =? 0 then None
  else if 0 <? step then Some (range_up (Z.to_nat (stop - start)) start stop step)
  else Some (range_down (Z.to_nat (start - stop)) start stop step).

End PyRange.

(** ** [human_bytes] *)

Definition units : list string := ["B"; "KB"; "MB"; "GB"]%string.

(** [while x >= 1024.0 and i < len(units) - 1: x /= 1024.0; i += 1].
    Every pass increments [i], so [len(units)] passes are a bound.  The
    float [x] is a rational: [float(n)] is exact for a byte count of at
    most 2^53 in absolute value and for the multiples of a power of two
    that fit 53 bits (every power of two below 2^1024 among them), and so
    are the divisions by 1024 of such values.  The rounding of [float(n)]
    for other byte counts and its [OverflowError] from 2^1024 on are not
    modelled. *)
Fixpoint human_loop (fuel : nat) (x : Q) (i : nat) : Q * nat :=
  match fuel with
  | O => (x, i)
  | S fuel' =>
      if Qle_bool 1024 x && (i <? length units - 1)%nat
      then human_loop fuel' (x / 1024)%Q (S i)
      else (x, i)
  end.

(** The value and the index of the unit that [human_bytes] shows. *)
Definition human_scaled (n : Z) : Q * nat :=
  human_loop (length units) (inject_Z n) 0.

(** Rounding to the nearest integer, ties to even. *)
Definition round_half_even (x : Q) : Z :=
  let q := Qnum x / Zpos (Qden x) in
  let r := Qnum x mod Zpos (Qden x) in
  match 2 * r ?= Zpos (Qden x) with
  | Lt => q
  | Gt => q + 1
  | Eq => if Z.even q then q else q + 1
  end.

Definition decimal (n : Z) : string :=
  DecimalString.NilZero.string_of_int (Z.to_int n).

(** [f"{x:.1f}"]: the sign, the integer part, a point and one digit. *)
Definition format_1f (x : Q) : string :=
  let tenths := Z.abs (round_half_even (x * 10)) in
  ((if (Qnum x <? 0)%Z then "-" else EmptyString) ++
   decimal (tenths / 10)%Z ++ "." ++ decimal (tenths mod 10)%Z)%string.

Definition human_bytes (n : Z) : string :=
  let (x, i) := human_scaled n in
  (format_1f x ++ " " ++ nth i units EmptyString)%string.

(** ** The size sweep *)

(** [int(math.log2(n))] for an integer [n >= 1]: the floor of the binary
    logarithm.  The double-precision logarithm agrees with it on every
    power of two and on every argument below 2^47; from 2^49 - 1 on, the
    logarithm of an argument just below a power of two rounds up to the
    next integer, which is not modelled: the properties that depend on the
    floor are stated for bounds below 2^47. *)
Definition int_log2 (n : Z) : Z := Z.log2 n.

Definition generate_sizes (min_kb max_bytes : Z) : list Z :=
  let min_bytes := min_kb * 1024 in
  let pow_min := int_log2 (Z.max 1024 min_bytes) in
  let pow_max := int_log2 (Z.max 1024 max_bytes) in
  map (fun p => Z.shiftl 1 p) (PyRange.range2 pow_min (pow_max + 1)).

(** ** Access counts of one measurement *)

(** [max(1, (num_elements + stride_elems - 1) // stride_elems)] *)
Definition accesses_per_loop (num_elements stride_elems : Z) : Z :=
  Z.max 1 ((num_elements + stride_elems - 1) / stride_elems).

(** [max(1, (min_accesses + accesses_per_loop - 1) // accesses_per_loop)] *)
Definition loops_for (min_accesses apl : Z) : Z :=
  Z.max 1 ((min_accesses + apl - 1) / apl).

(** ** Floats, exceptions and the world *)

(** A float of the program: the not-a-number marker or a finite value. *)
Inductive sample : Type :=
  | NaN
  | Val (q : Q).

Inductive exn : Type :=
  | MemoryError
  | ValueError
  | IndexError
  | ZeroDivisionError
  | StatisticsError
  | OverflowError.

Inductive result (A : Type) : Type :=
  | Ok (a : A)
  | Raise (e : exn).
Arguments Ok {A} a.
Arguments Raise {A} e.

Inductive buffer_kind : Type :=
  | ArrayQ   (* array("Q"): one flat block of unsigned 64-bit values *)
  | PyList.  (* list of int objects *)

(** One invocation of a measurement function, as the caller made it. *)
Record call : Type := Call {
  call_kind : buffer_kind;
  call_num_elements : Z;
  call_stride_elems : Z;
  call_min_accesses : Z;
  call_warmup : bool
}.

(** A line of standard output.  Rendering (column widths, [human_bytes],
    the number of decimals) is left out: a row is its byte count, the cell
    of the array column and the cell of the list column; the cell of a
    disabled buffer kind is absent. *)
Inductive line : Type :=
  | Header (cols : list string)
  | Row (size_bytes : Z) (array_cell list_cell : option sample).

(** [sys.maxsize] of a 64-bit build: the largest length of a sequence. *)
Definition ssize_max : Z := 2 ^ 63 - 1.

(** Whether a constructor accepts [n] as an element count at all:
    [array("Q", [0]) * n] wants [n] to fit an index-sized integer (a
    negative count gives the empty array), [list(range(n))] wants the
    length of the range to fit one.  Otherwise it raises [OverflowError]. *)
Definition fits_index (kind : buffer_kind) (n : Z) : bool :=
  match kind with
  | ArrayQ => (- ssize_max - 1 <=? n) && (n <=? ssize_max)
  | PyList => n <=? ssize_max
  end.

(** What the program does not control: the successive readings of
    [time.perf_counter_ns()] and the allocator.  A buffer of a kind and an
    element count is either granted whenever it is asked for
    ([always_granted]), or granted or refused depending on the moment:
    [granted_at a] is the answer to the [a]-th construction of the run. *)
Record Env : Type := {
  clock : nat -> Z;
  always_granted : buffer_kind -> Z -> bool;
  granted_at : nat -> buffer_kind -> Z -> bool
}.

(** The constructor of this buffer succeeds, whenever it is called. *)
Definition can_alloc (env : Env) (kind : buffer_kind) (n : Z) : bool :=
  fits_index kind n && always_granted env kind n.

(** The constructor of this buffer succeeds as the [a]-th construction. *)
Definition granted (env : Env) (a : nat) (kind : buffer_kind) (n : Z) : bool :=
  always_granted env kind n || granted_at env a kind n.

(** What the program changes.  [allocs] is the number of buffer
    constructions so far.  [reads] counts the evaluations of [data[i]] and
    [calls] records the calls of the two measurement functions; both are
    observations added to state the properties, the rest is the program's
    own. *)
Record World : Type := {
  clock_pos : nat;
  allocs : nat;
  reads : Z;
  calls : list call;
  stdout : list line;
  stderr : list string
}.

Definition M (A : Type) : Type := World -> result A * World.

Definition ret {A} (a : A) : M A := fun w => (Ok a, w).

Definition raise {A} (e : exn) : M A := fun w => (Raise e, w).

Definition bind {A B} (m : M A) (f : A -> M B) : M B :=
  fun w => match m w with
           | (Ok a, w') => f a w'
           | (Raise e, w') => (Raise e, w')
           end.

Declare Scope py_scope.
Delimit Scope py_scope with py.
Notation "x <- c1 ;; c2" := (bind c1 (fun x => c2))
  (at level 100, c1 at next level, right associativity) : py_scope.
Notation "c1 ;; c2" := (bind c1 (fun _ => c2))
  (at level 100, right associativity) : py_scope.
Local Open Scope py_scope.

(** [try: body  except MemoryError: handler] *)
Definition try_except_MemoryError {A} (body handler : M A) : M A :=
  fun w => match body w with
           | (Raise MemoryError, w') => handler w'
           | r => r
           end.

(** [for x in l: s = body(x, s)] *)
Fixpoint for_fold {A S} (l : list A) (body : A -> S -> M S) (s : S) : M S :=
  match l with
  | [] => ret s
  | x :: l' => s' <- body x s ;; for_fold l' body s'
  end.

Definition print_stdout (l : line) : M unit :=
  fun w => (Ok tt, {| clock_pos := clock_pos w; allocs := allocs w; reads := reads w;
                      calls := calls w; stdout := stdout w ++ [l]; stderr := stderr w |}).

Definition print_stderr (s : string) : M unit :=
  fun w => (Ok tt, {| clock_pos := clock_pos w; allocs := allocs w; reads := reads w;
                      calls := calls w; stdout := stdout w; stderr := stderr w ++ [s] |}).

Definition enter (c : call) : M unit :=
  fun w => (Ok tt, {| clock_pos := clock_pos w; allocs := allocs w; reads := reads w;
                      calls := calls w ++ [c]; stdout := stdout w; stderr := stderr w |}).

(** [data[i]], with Python's negative indices. *)
Definition getitem (data : list Z) (i : Z) : M Z :=
  fun w =>
    let n := Z.of_nat (length data) in
    let w' := {| clock_pos := clock_pos w; allocs := allocs w; reads := reads w + 1;
                 calls := calls w; stdout := stdout w; stderr := stderr w |} in
    let j := if i <? 0 then i + n else i in
    if (0 <=? j) && (j <? n) then (Ok (nth (Z.to_nat j) data 0), w')
    else (Raise IndexError, w').

(** [a // b] *)
Definition floordiv (a b : Z) : M Z :=
  if b =? 0 then raise ZeroDivisionError else ret (a / b).

(** [a / b] on integers: a float. *)
Definition truediv (a b : Z) : M Q :=
  if b =? 0 then raise ZeroDivisionError
  else ret (Qred (inject_Z a / inject_Z b)).

(** ** [statistics.median] *)

Module QOrder <: TotalLeBool.
Definition t := Q.
Definition leb := Qle_bool.
Theorem leb_total : forall x y, leb x y = true \/ leb y x = true.
Proof.
  intros x y. unfold leb. rewrite !Qle_bool_iff.
  destruct (Qlt_le_dec x y) as [H | H]; [left; apply Qlt_le_weak, H | right; exact H].
Qed.
End QOrder.

Module QSort := Sort QOrder.

(** [sorted(data)], then the middle element, or the mean of the two
    middle ones; [None] stands for the [StatisticsError] of empty data. *)
Definition median_value (data : list Q) : option Q :=
  let data := QSort.sort data in
  let n := Z.of_nat (length data) in
  if n =? 0 then None
  else if n mod 2 =? 1 then Some (nth (Z.to_nat (n / 2)) data 0%Q)
  else
    let i := n / 2 in
    Some (Qred ((nth (Z.to_nat (i - 1)) data 0 + nth (Z.to_nat i) data 0) / 2)%Q).

Definition median (data : list Q) : M Q :=
  match median_value data with
  | Some m => ret m
  | None => raise StatisticsError
  end.

(** ** The measurement functions *)

Section Benchmark.

Variable env : Env.

Definition perf_counter_ns : M Z :=
  fun w => (Ok (clock env (clock_pos w)),
            {| clock_pos := S (clock_pos w); allocs := allocs w; reads := reads w;
               calls := calls w; stdout := stdout w; stderr := stderr w |}).

(** The constructor of a buffer: [OverflowError] for an element count
    that is no index, [MemoryError] when the allocator refuses the block
    at this moment. *)
Definition allocate (kind : buffer_kind) (num_elements : Z) (data : list Z) : M (list Z) :=
  fun w =>
    let w' := {| clock_pos := clock_pos w; allocs := S (allocs w); reads := reads w;
                 calls := calls w; stdout := stdout w; stderr := stderr w |} in
    if negb (fits_index kind num_elements) then (Raise OverflowError, w')
    else if granted env (allocs w) kind num_elements then (Ok data, w')
    else (Raise MemoryError, w').

(** [array("Q", [0]) * num_elements] *)
Definition new_array (num_elements : Z) : M (list Z) :=
  allocate ArrayQ num_elements (repeat 0 (Z.to_nat num_elements)).

(** [list(range(num_elements))] *)
Definition new_list (num_elements : Z) : M (list Z) :=
  allocate PyList num_elements (PyRange.range2 0 num_elements).

(** One walk over the buffer:
    [for i in range(0, num_elements, stride_elems): s ^= data[i]] *)
Definition walk (data : list Z) (num_elements stride_elems : Z) (s : Z) : M Z :=
  match PyRange.range3 0 num_elements stride_elems with
  | None => raise ValueError
  | Some idxs => for_fold idxs (fun i s => v <- getitem data i ;; ret (Z.lxor s v)) s
  end.

(** The timed region:
    [s = 0; for _ in range(loops): <one walk>], giving the final [s]. *)
Definition timed_loops (data : list Z) (num_elements stride_elems loops : Z) : M Z :=
  for_fold (PyRange.range2 0 loops)
    (fun _ s => walk data num_elements stride_elems s) 0.

(** Everything of a measurement function after the buffer is built; the
    two functions of the source differ in the buffer only. *)
Definition measure_on (data : list Z) (num_elements stride_elems min_accesses : Z)
    (warmup : bool) : M Q :=
  (if warmup then walk data num_elements stride_elems 0 else ret 0) ;;
  q <- floordiv (num_elements + stride_elems - 1) stride_elems ;;
  let accesses_per_loop := Z.max 1 q in
  q' <- floordiv (min_accesses + accesses_per_loop - 1) accesses_per_loop ;;
  let loops := Z.max 1 q' in
  start <- perf_counter_ns ;;
  s <- timed_loops data num_elements stride_elems loops ;;
  end_ <- perf_counter_ns ;;
  (if s =? -1 then print_stderr EmptyString else ret tt) ;;
  let total_accesses := loops * accesses_per_loop in
  truediv (end_ - start) total_accesses.

Definition measure_stride_reads_array (num_elements stride_elems min_accesses : Z)
    (warmup : bool) : M Q :=
  enter (Call ArrayQ num_elements stride_elems min_accesses warmup) ;;
  data <- new_array num_elements ;;
  measure_on data num_elements stride_elems min_accesses warmup.

Definition measure_stride_reads_list (num_elements stride_elems min_accesses : Z)
    (warmup : bool) : M Q :=
  enter (Call PyList num_elements stride_elems min_accesses warmup) ;;
  data <- new_list num_elements ;;
  measure_on data num_elements stride_elems min_accesses warmup.

(** ** [main] *)

Record Args : Type := {
  min_kb : Z;
  max_mb : Z;
  max_gb : option Q;
  stride_bytes : Z;
  min_accesses : Z;
  repeats : Z;
  use_list : bool;
  use_array : bool;
  csv : bool;
  warmup : bool
}.

Definition element_size : Z := 8.

(** [int(x)] on a float: truncation towards zero. *)
Definition int_of_float (x : Q) : Z := Z.quot (Qnum x) (Zpos (Qden x)).

(** The cell a row shows for a measured value: the value, or [nan] for
    [None] and for the not-a-number marker. *)
Definition cell_of (ns : option sample) : sample :=
  match ns with
  | Some (Val q) => Val q
  | _ => NaN
  end.

(** [samples = []; for _ in range(repeats): samples.append(measure(...))],
    then [statistics.median(samples)]. *)
Definition median_of_repeats (n : Z) (measure : M Q) : M (option sample) :=
  samples <- for_fold (PyRange.range2 0 n)
               (fun _ samples => x <- measure ;; ret (samples ++ [x])) [] ;;
  m <- median samples ;;
  ret (Some (Val m)).

(** The [try] block of the array: the median over the repeats, or
    [float("nan")] on [MemoryError]. *)
Definition array_block (args : Args) (stride_elems num_elements_array : Z)
    : M (option sample) :=
  try_except_MemoryError
    (median_of_repeats (repeats args)
       (measure_stride_reads_array num_elements_array stride_elems
          (min_accesses args) (warmup args)))
    (ret (Some NaN)).

(** The [try] block of the list; lists are slower, so a tenth of the
    accesses. *)
Definition list_block (args : Args) (stride_elems num_elements_list : Z)
    : M (option sample) :=
  try_except_MemoryError
    (median_of_repeats (repeats args)
       (measure_stride_reads_list num_elements_list stride_elems
          (min_accesses args / 10) (warmup args)))
    (ret (Some NaN)).

(** The body of [for size_bytes in sizes]. *)
Definition sweep_body (use_array' use_list' : bool) (args : Args) (stride_elems : Z)
    (size_bytes : Z) : M unit :=
  let num_elements_array := Z.max 1 (size_bytes / element_size) in
  let num_elements_list := num_elements_array in
  if num_elements_array <? 8 then ret tt
  else
    ns_array <-
      (if use_array' then array_block args stride_elems num_elements_array
       else ret None) ;;
    ns_list <-
      (if use_list' then list_block args stride_elems num_elements_list
       else ret None) ;;
    print_stdout
      (Row size_bytes
         (if use_array' then Some (cell_of ns_array) else None)
         (if use_list' then Some (cell_of ns_list) else None)).

Definition header_cols (csv' use_array' use_list' : bool) : list string :=
  (if csv' then ["bytes"; "human"] else ["bytes"; "size"])%string ++
  (if use_array' then [if csv' then "ns_per_access_arrayQ" else "array_Q ns/access"]%string
   else []) ++
  (if use_list' then [if csv' then "ns_per_access_list" else "list ns/access"]%string
   else []).

(** [for size_bytes in sizes: <body>] *)
Definition sweep (use_array' use_list' : bool) (args : Args) (stride_elems : Z)
    (sizes : list Z) : M unit :=
  for_fold sizes
    (fun size_bytes _ => sweep_body use_array' use_list' args stride_elems size_bytes) tt.

(** The flags after [if not args.use_list and not args.use_array]: both
    kinds when neither was chosen. *)
Definition neither_chosen (args : Args) : bool :=
  negb (use_list args) && negb (use_array args).

Definition use_list_of (args : Args) : bool :=
  if neither_chosen args then true else use_list args.

Definition use_array_of (args : Args) : bool :=
  if neither_chosen args then true else use_array args.

(** [max(1, args.stride_bytes // element_size)] *)
Definition stride_elems_of (args : Args) : Z :=
  Z.max 1 (stride_bytes args / element_size).

(** [int(args.max_gb * 1024 * 1024 * 1024)] if [--max-gb] is given, else
    [int(args.max_mb * 1024 * 1024)].  The float product is the product of
    rationals, which it is for a double whose product is finite and fits
    53 bits (see [ordinary_run]); the rounding of other values, the
    [OverflowError] of [int] on an infinite product and its [ValueError]
    on not-a-number are not modelled. *)
Definition max_bytes_of (args : Args) : Z :=
  match max_gb args with
  | Some g => int_of_float (g * inject_Z 1024 * inject_Z 1024 * inject_Z 1024)
  | None => max_mb args * 1024 * 1024
  end.

Definition main (args : Args) : M Z :=
  let use_list' := use_list_of args in
  let use_array' := use_array_of args in
  let stride_elems := stride_elems_of args in
  let max_bytes := max_bytes_of args in
  let sizes := generate_sizes (min_kb args) max_bytes in
  print_stdout (Header (header_cols (csv args) use_array' use_list')) ;;
  sweep use_array' use_list' args stride_elems sizes ;;
  ret 0.

End Benchmark.

(** * Vocabulary of the properties *)

(** Number of values of [range(i, stop, step)] for a positive step. *)
Definition count_up (i stop step : Z) : nat :=
  Z.to_nat ((stop - i + step - 1) / step).

(** [k] is the ceiling of [n / d], by its defining inequalities. *)
Definition is_ceil_div (n d k : Z) : Prop := d * (k - 1) < n <= d * k.

(** [m] is the statistical median of the samples [l]: the middle element
    of the samples in ascending order, or the mean of the two middle ones
    when their number is even. *)
Definition is_median (l : list Q) (m : Q) : Prop :=
  exists s, Permutation l s /\ StronglySorted Qle s /\
    let n := length s in
    if Nat.odd n then nth_error s (n / 2) = Some m
    else exists a b, nth_error s (n / 2 - 1) = Some a /\
                     nth_error s (n / 2) = Some b /\ (m == (a + b) / 2)%Q.

(** The accumulated XOR of the values at the indices [idxs]. *)
Definition xor_of (data : list Z) (idxs : list Z) (s : Z) : Z :=
  fold_left (fun s i => Z.lxor s (nth (Z.to_nat i) data 0)) idxs s.

(** The world after [k] more evaluations of [data[i]]. *)
Definition add_reads (k : Z) (w : World) : World :=
  {| clock_pos := clock_pos w; allocs := allocs w; reads := reads w + k;
     calls := calls w; stdout := stdout w; stderr := stderr w |}.

(** The world after a measurement function was entered, asked for its
    buffer and raised before its first clock reading. *)
Definition entered (c : call) (w : World) : World :=
  {| clock_pos := clock_pos w; allocs := S (allocs w); reads := reads w;
     calls := calls w ++ [c]; stdout := stdout w; stderr := stderr w |}.

(** The world after [k] measurements that returned: each reads the clock
    twice, evaluates [data[i]] [r] times and prints nothing. *)
Definition measured (k : nat) (c : call) (r : Z) (w : World) : World :=
  {| clock_pos := 2 * k + clock_pos w; allocs := k + allocs w;
     reads := reads w + Z.of_nat k * r;
     calls := calls w ++ repeat c k; stdout := stdout w; stderr := stderr w |}.

(** Reads of one measurement: the warm-up walk and the timed walks. *)
Definition reads_of_measure (num_elements stride_elems min_accesses : Z)
    (warmup : bool) : Z :=
  let apl := accesses_per_loop num_elements stride_elems in
  (if warmup then apl else 0) + loops_for min_accesses apl * apl.

Definition total_accesses (num_elements stride_elems min_accesses : Z) : Z :=
  let apl := accesses_per_loop num_elements stride_elems in
  loops_for min_accesses apl * apl.

(** The value a measurement returns when its first clock reading is the
    [c]-th of the run: elapsed nanoseconds over the total accesses. *)
Definition sample_at (env : Env) (total : Z) (c : nat) : Q :=
  Qred (inject_Z (clock env (S c) - clock env c) / inject_Z total).

(** The samples of [k] consecutive measurements from clock position [c]. *)
Definition samples_from (env : Env) (total : Z) (c : nat) (k : nat) : list Q :=
  map (fun i => sample_at env total (2 * i + c)) (seq 0 k).

(** Running [measure] again and again from the world [w] returns the
    samples [xs] and ends in the world [w']. *)
Inductive produces (measure : M Q) : World -> list Q -> World -> Prop :=
  | produces_nil w : produces measure w [] w
  | produces_cons w x w1 xs w2 :
      measure w = (Ok x, w1) -> produces measure w1 xs w2 ->
      produces measure w (x :: xs) w2.

(** The world after one more line of standard output. *)
Definition printed (l : line) (w : World) : World :=
  {| clock_pos := clock_pos w; allocs := allocs w; reads := reads w;
     calls := calls w; stdout := stdout w ++ [l]; stderr := stderr w |}.

(** The calls the sweep makes at one size. *)
Definition array_call (args : Args) (stride_elems n : Z) : call :=
  Call ArrayQ n stride_elems (min_accesses args) (warmup args).

Definition list_call (args : Args) (stride_elems n : Z) : call :=
  Call PyList n stride_elems (min_accesses args / 10) (warmup args).

Definition the_median (l : list Q) : Q :=
  match median_value l with
  | Some m => m
  | None => 0%Q
  end.

(** How many of the [k] answers from the [a]-th on are positive before
    the first negative one. *)
Fixpoint leading_true (g : nat -> bool) (a k : nat) : nat :=
  match k with
  | O => O
  | S k' => if g a then S (leading_true g (S a) k') else O
  end.

(** The repeats of a [try] block that return before the first refused
    construction. *)
Definition block_run (env : Env) (c : call) (repeats' : Z) (w : World) : nat :=
  leading_true (fun a => granted env a (call_kind c) (call_num_elements c))
    (allocs w) (Z.to_nat repeats').

(** Outcome of the [try] block of one buffer kind, when the number of
    repeats is positive and the element count is an index: the world it
    leaves and the value it assigns.  Either all the repeats return, or
    the first refused construction ends the block. *)
Definition block_end (env : Env) (c : call) (repeats' : Z) (w : World) : World :=
  let r := reads_of_measure (call_num_elements c) (call_stride_elems c)
             (call_min_accesses c) (call_warmup c) in
  let j := block_run env c repeats' w in
  if (j =? Z.to_nat repeats')%nat then measured j c r w
  else entered c (measured j c r w).

Definition block_value (env : Env) (c : call) (repeats' : Z) (w : World) : sample :=
  if (block_run env c repeats' w =? Z.to_nat repeats')%nat then
    Val (the_median
           (samples_from env
              (total_accesses (call_num_elements c) (call_stride_elems c)
                 (call_min_accesses c))
              (clock_pos w) (Z.to_nat repeats')))
  else NaN.

(** Outcome of the loop body at a size that is not skipped. *)
Definition body_end (env : Env) (ua ul : bool) (args : Args) (stride_elems : Z)
    (size_bytes : Z) (w : World) : World :=
  let n := size_bytes / element_size in
  let ca := array_call args stride_elems n in
  let cl := list_call args stride_elems n in
  let wa := if ua then block_end env ca (repeats args) w else w in
  let wl := if ul then block_end env cl (repeats args) wa else wa in
  printed
    (Row size_bytes
       (if ua then Some (block_value env ca (repeats args) w) else None)
       (if ul then Some (block_value env cl (repeats args) wa) else None))
    wl.

(** Outcome of the whole loop over [sizes]. *)
Definition sweep_end (env : Env) (ua ul : bool) (args : Args) (stride_elems : Z)
    (sizes : list Z) (w : World) : World :=
  fold_left
    (fun w size_bytes =>
       if size_bytes / element_size <? 8 then w
       else body_end env ua ul args stride_elems size_bytes w)
    sizes w.

(** The number of calls of one [try] block: all the repeats, or those that
    returned and the one that raised. *)
Definition block_count (env : Env) (c : call) (repeats' : Z) (w : World) : nat :=
  let j := block_run env c repeats' w in
  if (j =? Z.to_nat repeats')%nat then j else S j.

(** The calls at one size, given how many each [try] block makes. *)
Definition calls_at (args : Args) (stride_elems : Z) (x : Z * (nat * nat)) : list call :=
  repeat (array_call args stride_elems (fst x / element_size)) (fst (snd x)) ++
  repeat (list_call args stride_elems (fst x / element_size)) (snd (snd x)).

(** The numbers of calls the two [try] blocks can make at one size: an
    enabled kind between one and [repeats'], a disabled kind none. *)
Definition counts_ok (ua ul : bool) (repeats' : Z) (k : nat * nat) : Prop :=
  (if ua then (1 <= fst k <= Z.to_nat repeats')%nat else fst k = O) /\
  (if ul then (1 <= snd k <= Z.to_nat repeats')%nat else snd k = O).

(** A [try] block whose buffer can always be built makes all its
    [repeats'] calls. *)
Definition counts_full (env : Env) (ua ul : bool) (repeats' : Z)
    (x : Z * (nat * nat)) : Prop :=
  (ua = true -> can_alloc env ArrayQ (fst x / element_size) = true ->
   fst (snd x) = Z.to_nat repeats') /\
  (ul = true -> can_alloc env PyList (fst x / element_size) = true ->
   snd (snd x) = Z.to_nat repeats').

(** The byte counts of the rows among some lines of output. *)
Definition row_sizes (out : list line) : list Z :=
  flat_map (fun l => match l with Row s _ _ => [s] | Header _ => [] end) out.

(** The floor of the accesses a call of each kind is made with. *)
Definition floor_of_kind (args : Args) (c : call) : Prop :=
  call_min_accesses c =
  match call_kind c with
  | ArrayQ => min_accesses args
  | PyList => min_accesses args / 10
  end.

(** The defaults of the command line. *)
Definition default_args : Args :=
  {| min_kb := 16; max_mb := 512; max_gb := None; stride_bytes := 64;
     min_accesses := 1000000; repeats := 3; use_list := false; use_array := false;
     csv := false; warmup := true |}.

(** A small run for the examples: sizes from 1 KB to 16 KB, a clock that
    ticks quadratically, and an allocator that refuses a buffer of 1000
    elements or more. *)
Definition small_args : Args :=
  {| min_kb := 1; max_mb := 0; max_gb := Some (1 # 65536)%Q; stride_bytes := 64;
     min_accesses := 100; repeats := 3; use_list := false; use_array := false;
     csv := false; warmup := true |}.

Definition small_env : Env :=
  {| clock := fun i => Z.of_nat (i * i) * 1000;
     always_granted := fun _ n => n <? 1000;
     granted_at := fun _ _ _ => false |}.

Definition fresh_world : World :=
  {| clock_pos := 0; allocs := 0; reads := 0; calls := []; stdout := [];
     stderr := [] |}.

(** The same run without repeats. *)
Definition zero_repeats_args : Args :=
  {| min_kb := 1; max_mb := 0; max_gb := Some (1 # 65536)%Q; stride_bytes := 64;
     min_accesses := 100; repeats := 0; use_list := false; use_array := false;
     csv := false; warmup := true |}.

(** An allocator under pressure: it grants the first construction of the
    run and refuses every later one. *)
Definition flaky_env : Env :=
  {| clock := fun i => Z.of_nat (i * i) * 1000;
     always_granted := fun _ _ => false;
     granted_at := fun a _ _ => (a <? 1)%nat |}.

(** [q] is the value of a finite double. *)
Definition exact_double (q : Q) : Prop :=
  exists m e : Z, Z.abs m < 2 ^ 53 /\ -1074 <= e <= 971 /\ (q == inject_Z m * 2 ^ e)%Q.

(** The bounds of a run on which the model computes what the program
    computes: an upper bound given in GB is the value of a double, and
    both bounds are below 2^47 bytes (128 TB), where the truncated double
    logarithm is the exact [int_log2], the conversions between integers
    and doubles are exact and every element count is an index. *)
Definition ordinary_run (args : Args) : Prop :=
  match max_gb args with
  | Some g => exact_double g
  | None => True
  end /\
  min_kb args * 1024 < 2 ^ 47 /\
  - 2 ^ 47 < max_bytes_of args < 2 ^ 47.

(** A computation leaves standard error as it is, however it ends. *)
Definition keeps_stderr {A} (m : M A) : Prop :=
  forall w, stderr (snd (m w)) = stderr w.

(** A computation keeps a property of the recorded calls, however it
    ends. *)
Definition keeps_calls {A} (P : call -> Prop) (m : M A) : Prop :=
  forall w, Forall P (calls w) -> Forall P (calls (snd (m w))).

(** * Properties *)

(** ** [range] *)

Module PyRangeFacts.
Import PyRange.

Lemma count_up_done i stop step :
  0 < step -> stop <= i -> count_up i stop step = O.
Proof.
  intros Hs Hi. unfold count_up.
  assert ((stop - i + step - 1) / step < 1) by (apply Z.div_lt_upper_bound; lia).
  lia.
Qed.

Lemma count_up_next i stop step :
  0 < step -> i < stop -> count_up i stop step = S (count_up (i + step) stop step).
Proof.
  intros Hs Hi. unfold count_up.
  replace (stop - i + step - 1) with ((stop - (i + step) + step - 1) + 1 * step) by ring.
  rewrite Z.div_add by lia.
  assert (0 <= (stop - (i + step) + step - 1) / step) by (apply Z.div_pos; lia).
  lia.
Qed.

(** With enough fuel the recursion stops because the bound is reached:
    the list is the arithmetic progression in closed form. *)
Lemma range_up_closed fuel : forall i stop step,
  0 < step -> stop - i <= Z.of_nat fuel ->
  range_up fuel i stop step =
  map (fun k => i + Z.of_nat k * step) (seq 0 (count_up i stop step)).
Proof.
  induction fuel as [| fuel IH]; intros i stop step Hs Hf; simpl.
  - rewrite count_up_done by lia. reflexivity.
  - destruct (i <? stop) eqn:E.
    + apply Z.ltb_lt in E. rewrite count_up_next by lia.
      rewrite IH by lia. simpl. f_equal; [lia |].
      rewrite <- seq_shift, map_map. apply map_ext. intros k. lia.
    + apply Z.ltb_ge in E. rewrite count_up_done by lia. reflexivity.
Qed.

Lemma range3_up n step :
  0 < step ->
  range3 0 n step = Some (map (fun k => Z.of_nat k * step) (seq 0 (count_up 0 n step))).
Proof.
  intros Hs. unfold range3.
  destruct (step =? 0) eqn:E0; [apply Z.eqb_eq in E0; lia |].
  destruct (0 <? step) eqn:E1; [| apply Z.ltb_ge in E1; lia].
  rewrite range_up_closed by lia. reflexivity.
Qed.

Lemma range2_closed a b :
  range2 a b = map (fun k => a + Z.of_nat k) (seq 0 (Z.to_nat (b - a))).
Proof.
  unfold range2. rewrite range_up_closed by lia.
  unfold count_up. replace (b - a + 1 - 1) with (b - a) by ring.
  rewrite Z.div_1_r. apply map_ext. intros k. lia.
Qed.

Lemma in_range2 a b p : In p (range2 a b) <-> a <= p < b.
Proof.
  rewrite range2_closed, in_map_iff. split.
  - intros (k & <- & Hk). apply in_seq in Hk. lia.
  - intros H. exists (Z.to_nat (p - a)). split; [lia |]. apply in_seq. lia.
Qed.

Lemma length_range2 a b : length (range2 a b) = Z.to_nat (b - a).
Proof. rewrite range2_closed, length_map, length_seq. reflexivity. Qed.

Lemma ceil_div_formula n d : 0 < d -> is_ceil_div n d ((n + d - 1) / d).
Proof.
  intros Hd. unfold is_ceil_div.
  pose proof (Z.div_mod (n + d - 1) d ltac:(lia)) as E.
  pose proof (Z.mod_pos_bound (n + d - 1) d Hd) as B.
  nia.
Qed.

Lemma is_ceil_div_unique n d k k' :
  0 < d -> is_ceil_div n d k -> is_ceil_div n d k' -> k = k'.
Proof. unfold is_ceil_div. intros Hd H H'. nia. Qed.

End PyRangeFacts.

(** ** Walks over a buffer *)

Section WalkFacts.

Lemma add_reads_0 w : add_reads 0 w = w.
Proof. destruct w. unfold add_reads. simpl. f_equal. lia. Qed.

Lemma add_reads_add a b w : add_reads a (add_reads b w) = add_reads (b + a) w.
Proof. unfold add_reads. simpl. f_equal. lia. Qed.

Lemma getitem_in_range data i w :
  0 <= i < Z.of_nat (length data) ->
  getitem data i w = (Ok (nth (Z.to_nat i) data 0), add_reads 1 w).
Proof.
  intros Hi. unfold getitem.
  destruct (i <? 0) eqn:E; [apply Z.ltb_lt in E; lia |].
  replace (0 <=? i) with true by (symmetry; apply Z.leb_le; lia).
  replace (i <? Z.of_nat (length data)) with true by (symmetry; apply Z.ltb_lt; lia).
  reflexivity.
Qed.

Lemma for_fold_getitem data idxs :
  (forall i, In i idxs -> 0 <= i < Z.of_nat (length data)) ->
  forall s w,
    for_fold idxs (fun i s => v <- getitem data i ;; ret (Z.lxor s v)) s w =
    (Ok (xor_of data idxs s), add_reads (Z.of_nat (length idxs)) w).
Proof.
  induction idxs as [| i idxs IH]; intros Hin s w.
  - simpl. unfold ret. rewrite add_reads_0. reflexivity.
  - cbn [for_fold]. unfold bind at 1. unfold bind at 1.
    rewrite getitem_in_range by (apply Hin; left; reflexivity).
    unfold ret at 1. rewrite IH by (intros j Hj; apply Hin; right; exact Hj).
    rewrite add_reads_add. cbn [xor_of fold_left length].
    do 2 f_equal. lia.
Qed.

(** The indices of one walk. *)
Lemma walk_indices n stride :
  0 < stride -> 1 <= n ->
  exists idxs,
    PyRange.range3 0 n stride = Some idxs /\
    Z.of_nat (length idxs) = accesses_per_loop n stride /\
    forall i, In i idxs -> 0 <= i < n.
Proof.
  intros Hs Hn. eexists. split; [apply PyRangeFacts.range3_up; exact Hs |].
  pose proof (PyRangeFacts.ceil_div_formula n stride Hs) as Hc.
  unfold is_ceil_div in Hc.
  assert (Hq : 1 <= (n + stride - 1) / stride)
    by (apply Z.div_le_lower_bound; lia).
  split.
  - rewrite length_map, length_seq. unfold count_up, accesses_per_loop.
    replace (n - 0 + stride - 1) with (n + stride - 1) by ring. lia.
  - intros i Hi. apply in_map_iff in Hi. destruct Hi as (k & <- & Hk).
    apply in_seq in Hk. unfold count_up in Hk.
    replace (n - 0 + stride - 1) with (n + stride - 1) in Hk by ring.
    nia.
Qed.

Lemma xor_of_nonneg data idxs :
  Forall (fun v => 0 <= v) data ->
  forall s, 0 <= s -> 0 <= xor_of data idxs s.
Proof.
  intros Hd. induction idxs as [| i idxs IH]; intros s Hs; [exact Hs |].
  cbn [xor_of fold_left]. apply IH. apply Z.lxor_nonneg.
  assert (0 <= nth (Z.to_nat i) data 0).
  { destruct (nth_in_or_default (Z.to_nat i) data 0) as [H | H].
    - rewrite Forall_forall in Hd. apply Hd, H.
    - rewrite H. lia. }
  tauto.
Qed.

Lemma xor_of_zeros data idxs :
  Forall (fun v => v = 0) data ->
  forall s, xor_of data idxs s = s.
Proof.
  intros Hd. induction idxs as [| i idxs IH]; intros s; [reflexivity |].
  cbn [xor_of fold_left].
  assert (E : nth (Z.to_nat i) data 0 = 0).
  { destruct (nth_in_or_default (Z.to_nat i) data 0) as [H | H].
    - rewrite Forall_forall in Hd. apply Hd, H.
    - exact H. }
  rewrite E, Z.lxor_0_r. apply IH.
Qed.

(** One walk over a buffer of [n] non-negative values: it returns, after
    [accesses_per_loop n stride] reads, and the accumulator stays
    non-negative (and unchanged on a buffer of zeros). *)
Lemma walk_ok data n stride s w :
  0 < stride -> 1 <= n -> length data = Z.to_nat n ->
  Forall (fun v => 0 <= v) data ->
  exists s',
    walk data n stride s w = (Ok s', add_reads (accesses_per_loop n stride) w) /\
    (0 <= s -> 0 <= s') /\ (Forall (fun v => v = 0) data -> s' = s).
Proof.
  intros Hs Hn Hlen Hd.
  destruct (walk_indices n stride Hs Hn) as (idxs & Hr & Hl & Hin).
  exists (xor_of data idxs s). unfold walk. rewrite Hr.
  rewrite for_fold_getitem by (intros i Hi; apply Hin in Hi; lia).
  rewrite Hl. split; [reflexivity |]. split.
  - intros Hs0. apply xor_of_nonneg; assumption.
  - intros Hz. apply xor_of_zeros, Hz.
Qed.

Lemma for_fold_walks {A} data n stride (l : list A) :
  0 < stride -> 1 <= n -> length data = Z.to_nat n ->
  Forall (fun v => 0 <= v) data ->
  forall s w, 0 <= s ->
  exists s',
    for_fold l (fun _ s => walk data n stride s) s w =
    (Ok s', add_reads (Z.of_nat (length l) * accesses_per_loop n stride) w) /\
    0 <= s' /\ (Forall (fun v => v = 0) data -> s' = s).
Proof.
  intros Hs Hn Hlen Hd.
  induction l as [| x l IH]; intros s w Hs0.
  - exists s. simpl. unfold ret. rewrite add_reads_0. auto.
  - destruct (walk_ok data n stride s w Hs Hn Hlen Hd) as (s1 & E1 & P1 & Z1).
    destruct (IH s1 (add_reads (accesses_per_loop n stride) w) (P1 Hs0))
      as (s2 & E2 & P2 & Z2).
    exists s2. cbn [for_fold]. unfold bind. rewrite E1, E2, add_reads_add.
    split; [| split].
    + do 2 f_equal. cbn [length]. lia.
    + exact P2.
    + intros Hz. rewrite Z2, Z1 by exact Hz. reflexivity.
Qed.

Lemma timed_loops_ok data n stride loops w :
  0 < stride -> 1 <= n -> length data = Z.to_nat n ->
  Forall (fun v => 0 <= v) data -> 0 <= loops ->
  exists s,
    timed_loops data n stride loops w =
    (Ok s, add_reads (loops * accesses_per_loop n stride) w) /\
    0 <= s /\ (Forall (fun v => v = 0) data -> s = 0).
Proof.
  intros Hs Hn Hlen Hd Hl. unfold timed_loops.
  destruct (for_fold_walks data n stride (PyRange.range2 0 loops) Hs Hn Hlen Hd
              0 w (Z.le_refl 0)) as (s & E & P & Z0).
  exists s. rewrite E, PyRangeFacts.length_range2.
  replace (Z.of_nat (Z.to_nat (loops - 0))) with loops by lia. auto.
Qed.

End WalkFacts.

(** ** One measurement *)

Section MeasureFacts.

Variable env : Env.

Lemma accesses_per_loop_pos n stride : 1 <= accesses_per_loop n stride.
Proof. unfold accesses_per_loop. lia. Qed.

Lemma loops_for_pos m apl : 1 <= loops_for m apl.
Proof. unfold loops_for. lia. Qed.

Lemma floordiv_ok a b w : b <> 0 -> floordiv a b w = (Ok (a / b), w).
Proof.
  intros Hb. unfold floordiv.
  destruct (b =? 0) eqn:E; [apply Z.eqb_eq in E; contradiction | reflexivity].
Qed.

Lemma truediv_ok a b w :
  b <> 0 -> truediv a b w = (Ok (Qred (inject_Z a / inject_Z b)), w).
Proof.
  intros Hb. unfold truediv.
  destruct (b =? 0) eqn:E; [apply Z.eqb_eq in E; contradiction | reflexivity].
Qed.

(** A measurement on a well-formed buffer returns the elapsed time over
    the total accesses; it reads the clock twice, evaluates [data[i]] as
    often as [reads_of_measure] says and prints nothing. *)
Lemma measure_on_ok data n stride min_acc warm w :
  0 < stride -> 1 <= n -> length data = Z.to_nat n ->
  Forall (fun v => 0 <= v) data ->
  measure_on env data n stride min_acc warm w =
  (Ok (sample_at env (total_accesses n stride min_acc) (clock_pos w)),
   {| clock_pos := 2 + clock_pos w; allocs := allocs w;
      reads := reads w + reads_of_measure n stride min_acc warm;
      calls := calls w; stdout := stdout w; stderr := stderr w |}).
Proof.
  intros Hs Hn Hlen Hd.
  set (apl := accesses_per_loop n stride).
  set (loops := loops_for min_acc apl).
  assert (Hapl : 1 <= apl) by apply accesses_per_loop_pos.
  assert (Hloops : 1 <= loops) by apply loops_for_pos.
  assert (Hwarm : exists s0,
    (if warm then walk data n stride 0 else ret 0) w =
    (Ok s0, add_reads (if warm then apl else 0) w)).
  { destruct warm.
    - destruct (walk_ok data n stride 0 w Hs Hn Hlen Hd) as (s0 & E & _).
      exists s0. exact E.
    - exists 0. unfold ret. rewrite add_reads_0. reflexivity. }
  destruct Hwarm as (s0 & Ewarm).
  unfold measure_on. unfold bind at 1. rewrite Ewarm.
  unfold bind at 1. rewrite floordiv_ok by lia.
  fold (accesses_per_loop n stride). fold apl.
  unfold bind at 1. rewrite floordiv_ok by lia.
  fold (loops_for min_acc apl). fold loops.
  unfold bind at 1. unfold perf_counter_ns at 1.
  unfold bind at 1.
  match goal with
  | |- context [timed_loops data n stride loops ?w1] =>
      destruct (timed_loops_ok data n stride loops w1 Hs Hn Hlen Hd ltac:(lia))
        as (s & Et & Ps & _)
  end.
  rewrite Et. fold apl.
  unfold bind at 1. unfold perf_counter_ns at 1.
  unfold bind at 1.
  destruct (s =? -1) eqn:Es; [apply Z.eqb_eq in Es; lia |].
  unfold ret at 1. rewrite truediv_ok by nia.
  unfold sample_at, total_accesses, reads_of_measure, add_reads. cbn.
  fold apl. fold loops. do 2 f_equal. lia.
Qed.

Lemma new_array_data n :
  length (repeat 0 (Z.to_nat n)) = Z.to_nat n /\
  Forall (fun v => v = 0) (repeat 0 (Z.to_nat n)).
Proof.
  split; [apply repeat_length |].
  apply Forall_forall. intros v Hv. apply repeat_spec in Hv. exact Hv.
Qed.

Lemma new_list_data n :
  length (PyRange.range2 0 n) = Z.to_nat n /\
  Forall (fun v => 0 <= v) (PyRange.range2 0 n).
Proof.
  split.
  - rewrite PyRangeFacts.length_range2. f_equal. lia.
  - apply Forall_forall. intros v Hv. apply PyRangeFacts.in_range2 in Hv. lia.
Qed.

Lemma measured_1 c r w :
  {| clock_pos := 2 + clock_pos (entered c w); allocs := allocs (entered c w);
     reads := reads (entered c w) + r;
     calls := calls (entered c w); stdout := stdout (entered c w);
     stderr := stderr (entered c w) |} = measured 1 c r w.
Proof.
  unfold measured, entered. cbn [clock_pos allocs reads calls stdout stderr repeat].
  f_equal; lia.
Qed.

(** Entering a measurement function and building its buffer. *)
Lemma enter_allocate c kind n data w :
  (enter c ;; allocate env kind n data) w =
  (if negb (fits_index kind n) then Raise OverflowError
   else if granted env (allocs w) kind n then Ok data
   else Raise MemoryError,
   entered c w).
Proof.
  unfold bind, enter, allocate, entered.
  cbn [clock_pos allocs reads calls stdout stderr].
  destruct (negb (fits_index kind n)); [reflexivity |].
  destruct (granted env (allocs w) kind n); reflexivity.
Qed.

Lemma bind_assoc {A B C} (m : M A) (f : A -> M B) (g : B -> M C) w :
  (x <- (y <- m ;; f y) ;; g x) w = (y <- m ;; x <- f y ;; g x) w.
Proof.
  unfold bind. destruct (m w) as [[a | e] w1]; [| reflexivity].
  destruct (f a w1) as [[b | e] w2]; reflexivity.
Qed.

Lemma can_alloc_granted kind n a :
  can_alloc env kind n = true ->
  fits_index kind n = true /\ granted env a kind n = true.
Proof.
  unfold can_alloc, granted. intros H. apply andb_true_iff in H.
  destruct H as (Hf & Hg). rewrite Hf, Hg. auto.
Qed.

(** The three outcomes of the array measurement. *)
Lemma measure_stride_reads_array_granted n stride min_acc warm w :
  0 < stride -> 1 <= n ->
  fits_index ArrayQ n = true -> granted env (allocs w) ArrayQ n = true ->
  measure_stride_reads_array env n stride min_acc warm w =
  (Ok (sample_at env (total_accesses n stride min_acc) (clock_pos w)),
   measured 1 (Call ArrayQ n stride min_acc warm)
     (reads_of_measure n stride min_acc warm) w).
Proof.
  intros Hs Hn Hf Hg. destruct (new_array_data n) as (Hl & Hz).
  unfold measure_stride_reads_array, new_array.
  rewrite <- bind_assoc. unfold bind at 1. rewrite enter_allocate, Hf, Hg.
  cbn [negb]. rewrite measure_on_ok; try assumption.
  - rewrite measured_1. reflexivity.
  - eapply Forall_impl; [| exact Hz]. intros v Hv. cbn in Hv. lia.
Qed.

Lemma measure_stride_reads_array_refused n stride min_acc warm w :
  fits_index ArrayQ n = true -> granted env (allocs w) ArrayQ n = false ->
  measure_stride_reads_array env n stride min_acc warm w =
  (Raise MemoryError, entered (Call ArrayQ n stride min_acc warm) w).
Proof.
  intros Hf Hg. unfold measure_stride_reads_array, new_array.
  rewrite <- bind_assoc. unfold bind at 1. rewrite enter_allocate, Hf, Hg. reflexivity.
Qed.

Lemma measure_stride_reads_array_overflow n stride min_acc warm w :
  fits_index ArrayQ n = false ->
  measure_stride_reads_array env n stride min_acc warm w =
  (Raise OverflowError, entered (Call ArrayQ n stride min_acc warm) w).
Proof.
  intros Hf. unfold measure_stride_reads_array, new_array.
  rewrite <- bind_assoc. unfold bind at 1. rewrite enter_allocate, Hf. reflexivity.
Qed.

Lemma measure_stride_reads_array_ok n stride min_acc warm w :
  0 < stride -> 1 <= n -> can_alloc env ArrayQ n = true ->
  measure_stride_reads_array env n stride min_acc warm w =
  (Ok (sample_at env (total_accesses n stride min_acc) (clock_pos w)),
   measured 1 (Call ArrayQ n stride min_acc warm)
     (reads_of_measure n stride min_acc warm) w).
Proof.
  intros Hs Hn Ha. destruct (can_alloc_granted ArrayQ n (allocs w) Ha) as (Hf & Hg).
  apply measure_stride_reads_array_granted; assumption.
Qed.

(** The three outcomes of the list measurement. *)
Lemma measure_stride_reads_list_granted n stride min_acc warm w :
  0 < stride -> 1 <= n ->
  fits_index PyList n = true -> granted env (allocs w) PyList n = true ->
  measure_stride_reads_list env n stride min_acc warm w =
  (Ok (sample_at env (total_accesses n stride min_acc) (clock_pos w)),
   measured 1 (Call PyList n stride min_acc warm)
     (reads_of_measure n stride min_acc warm) w).
Proof.
  intros Hs Hn Hf Hg. destruct (new_list_data n) as (Hl & Hp).
  unfold measure_stride_reads_list, new_list.
  rewrite <- bind_assoc. unfold bind at 1. rewrite enter_allocate, Hf, Hg.
  cbn [negb]. rewrite measure_on_ok; try assumption.
  rewrite measured_1. reflexivity.
Qed.

Lemma measure_stride_reads_list_refused n stride min_acc warm w :
  fits_index PyList n = true -> granted env (allocs w) PyList n = false ->
  measure_stride_reads_list env n stride min_acc warm w =
  (Raise MemoryError, entered (Call PyList n stride min_acc warm) w).
Proof.
  intros Hf Hg. unfold measure_stride_reads_list, new_list.
  rewrite <- bind_assoc. unfold bind at 1. rewrite enter_allocate, Hf, Hg. reflexivity.
Qed.

Lemma measure_stride_reads_list_overflow n stride min_acc warm w :
  fits_index PyList n = false ->
  measure_stride_reads_list env n stride min_acc warm w =
  (Raise OverflowError, entered (Call PyList n stride min_acc warm) w).
Proof.
  intros Hf. unfold measure_stride_reads_list, new_list.
  rewrite <- bind_assoc. unfold bind at 1. rewrite enter_allocate, Hf. reflexivity.
Qed.

Lemma measure_stride_reads_list_ok n stride min_acc warm w :
  0 < stride -> 1 <= n -> can_alloc env PyList n = true ->
  measure_stride_reads_list env n stride min_acc warm w =
  (Ok (sample_at env (total_accesses n stride min_acc) (clock_pos w)),
   measured 1 (Call PyList n stride min_acc warm)
     (reads_of_measure n stride min_acc warm) w).
Proof.
  intros Hs Hn Ha. destruct (can_alloc_granted PyList n (allocs w) Ha) as (Hf & Hg).
  apply measure_stride_reads_list_granted; assumption.
Qed.

End MeasureFacts.

(** ** The median *)

Module MedianFacts.

Lemma StronglySorted_weaken {A} (R R' : A -> A -> Prop) (l : list A) :
  (forall x y, R x y -> R' x y) -> StronglySorted R l -> StronglySorted R' l.
Proof.
  intros HR H. induction H as [| x l Hs IH Hx]; constructor.
  - exact IH.
  - eapply Forall_impl; [| exact Hx]. intros y. apply HR.
Qed.

Lemma sort_sorted (l : list Q) : StronglySorted Qle (QSort.sort l).
Proof.
  apply StronglySorted_weaken with (R := fun x y => is_true (Qle_bool x y)).
  - intros x y H. apply Qle_bool_iff, H.
  - apply QSort.StronglySorted_sort.
    intros x y z Hxy Hyz. unfold is_true in *.
    rewrite Qle_bool_iff in *. eapply Qle_trans; eassumption.
Qed.

Lemma half_index (n : nat) : Z.to_nat (Z.of_nat n / 2) = (n / 2)%nat.
Proof.
  change 2 with (Z.of_nat 2). rewrite <- Nat2Z.inj_div. apply Nat2Z.id.
Qed.

Lemma parity_test (n : nat) : (Z.of_nat n mod 2 =? 1) = Nat.odd n.
Proof.
  destruct (Nat.odd n) eqn:E.
  - apply Nat.odd_spec in E. destruct E as (k & ->). apply Z.eqb_eq.
    rewrite Nat2Z.inj_add, Nat2Z.inj_mul. change (Z.of_nat 2) with 2.
    change (Z.of_nat 1) with 1. rewrite Z.add_comm, Z.mul_comm, Z.mod_add by lia.
    reflexivity.
  - assert (Ev : Nat.even n = true) by (rewrite <- Nat.negb_odd, E; reflexivity).
    apply Nat.even_spec in Ev. destruct Ev as (k & ->). apply Z.eqb_neq.
    rewrite Nat2Z.inj_mul. change (Z.of_nat 2) with 2.
    rewrite Z.mul_comm, Z.mod_mul by lia. lia.
Qed.

(** What [statistics.median] returns is the statistical median. *)
Lemma median_value_spec (l : list Q) (m : Q) :
  median_value l = Some m -> is_median l m.
Proof.
  unfold median_value, is_median. intros H.
  exists (QSort.sort l). split; [apply QSort.Permuted_sort |].
  split; [apply sort_sorted |].
  set (s := QSort.sort l) in *. cbv zeta.
  destruct (Z.of_nat (length s) =? 0) eqn:E0; [discriminate |].
  apply Z.eqb_neq in E0. rewrite parity_test in H.
  destruct (Nat.odd (length s)) eqn:Eo.
  - injection H as <-. rewrite half_index. apply nth_error_nth'.
    apply Nat.div_lt; lia.
  - assert (Ev : Nat.even (length s) = true) by (rewrite <- Nat.negb_odd, Eo; reflexivity).
    apply Nat.even_spec in Ev. destruct Ev as (k & Hk).
    assert (Hhalf : (length s / 2 = k)%nat).
    { rewrite Hk, Nat.mul_comm. apply Nat.div_mul. lia. }
    injection H as <-. rewrite half_index, Hhalf.
    replace (Z.to_nat (Z.of_nat (length s) / 2 - 1)) with (k - 1)%nat.
    2:{ change 2 with (Z.of_nat 2). rewrite <- Nat2Z.inj_div, Hhalf. lia. }
    exists (nth (k - 1) s 0%Q), (nth k s 0%Q).
    split; [apply nth_error_nth'; lia |].
    split; [apply nth_error_nth'; lia |].
    exact (Qred_correct ((nth (k - 1) s 0 + nth k s 0) / 2)%Q).
Qed.

Lemma median_value_nonempty (l : list Q) :
  l <> [] -> exists m, median_value l = Some m.
Proof.
  intros Hl. unfold median_value.
  assert (Hlen : length (QSort.sort l) = length l)
    by (symmetry; apply Permutation_length, QSort.Permuted_sort).
  rewrite Hlen.
  destruct (Z.of_nat (length l) =? 0) eqn:E0.
  - apply Z.eqb_eq in E0. destruct l; [contradiction | simpl in E0; lia].
  - destruct (Z.of_nat (length l) mod 2 =? 1); eexists; reflexivity.
Qed.

End MedianFacts.

(** ** The repeats of one buffer kind *)

Section RepeatFacts.

Lemma measured_0 c r w : measured 0 c r w = w.
Proof.
  destruct w. unfold measured. cbn [clock_pos allocs reads calls stdout stderr repeat].
  rewrite app_nil_r. f_equal; lia.
Qed.

Lemma measured_succ k c r w :
  measured k c r (measured 1 c r w) = measured (S k) c r w.
Proof.
  unfold measured. cbn [clock_pos allocs reads calls stdout stderr repeat].
  rewrite <- app_assoc. f_equal; lia.
Qed.

(** A measurement function that always returns. *)
Section Loop.

Variables (measure : M Q) (c : call) (r : Z) (val : nat -> Q).

Hypothesis measure_returns :
  forall w, measure w = (Ok (val (clock_pos w)), measured 1 c r w).

Lemma repeats_loop {A} (l : list A) : forall samples w,
  for_fold l (fun _ samples => x <- measure ;; ret (samples ++ [x])) samples w =
  (Ok (samples ++ map (fun i => val (2 * i + clock_pos w)%nat) (seq 0 (length l))),
   measured (length l) c r w).
Proof.
  induction l as [| a l IH]; intros samples w.
  - simpl. unfold ret. rewrite app_nil_r, measured_0. reflexivity.
  - cbn [for_fold]. unfold bind at 1. unfold bind at 1.
    rewrite measure_returns. unfold ret at 1. rewrite IH, measured_succ.
    cbn [length seq map]. rewrite <- app_assoc. cbn [app].
    rewrite <- seq_shift, map_map. do 3 f_equal.
    f_equal.
    apply map_ext. intros i. f_equal. unfold measured. cbn [clock_pos]. lia.
Qed.

Lemma median_of_repeats_ok n w :
  1 <= n ->
  exists m,
    median_value (map (fun i => val (2 * i + clock_pos w)%nat) (seq 0 (Z.to_nat n))) = Some m /\
    median_of_repeats n measure w = (Ok (Some (Val m)), measured (Z.to_nat n) c r w).
Proof.
  intros Hn.
  destruct (MedianFacts.median_value_nonempty
              (map (fun i => val (2 * i + clock_pos w)%nat) (seq 0 (Z.to_nat n))))
    as (m & Hm).
  { destruct (Z.to_nat n) eqn:E; [lia | discriminate]. }
  exists m. split; [exact Hm |].
  unfold median_of_repeats. unfold bind at 1.
  rewrite repeats_loop, PyRangeFacts.length_range2.
  replace (n - 0) with n by ring. cbn [app].
  unfold bind, median. cbn [clock_pos measured]. rewrite Hm. reflexivity.
Qed.

End Loop.

(** A measurement function whose constructor is granted or refused
    according to the number of constructions so far. *)
Section GrantedLoop.

Variables (measure : M Q) (c : call) (r : Z) (val : nat -> Q) (g : nat -> bool).

Hypothesis measure_granted :
  forall w, g (allocs w) = true ->
            measure w = (Ok (val (clock_pos w)), measured 1 c r w).

Hypothesis measure_refused :
  forall w, g (allocs w) = false -> measure w = (Raise MemoryError, entered c w).

Lemma granted_loop {A} (l : list A) : forall samples w,
  for_fold l (fun _ samples => x <- measure ;; ret (samples ++ [x])) samples w =
  let j := leading_true g (allocs w) (length l) in
  if (j =? length l)%nat
  then (Ok (samples ++ map (fun i => val (2 * i + clock_pos w)%nat) (seq 0 (length l))),
        measured (length l) c r w)
  else (Raise MemoryError, entered c (measured j c r w)).
Proof.
  induction l as [| a l IH]; intros samples w; cbv zeta.
  - simpl. unfold ret. rewrite app_nil_r, measured_0. reflexivity.
  - cbn [for_fold length leading_true]. unfold bind at 1. unfold bind at 1.
    destruct (g (allocs w)) eqn:Hg.
    + rewrite measure_granted by exact Hg. unfold ret at 1. rewrite IH. cbv zeta.
      replace (allocs (measured 1 c r w)) with (S (allocs w)) by reflexivity.
      cbn [Nat.eqb].
      destruct (leading_true g (S (allocs w)) (length l) =? length l)%nat.
      * rewrite measured_succ. cbn [seq map]. rewrite <- app_assoc. cbn [app].
        rewrite <- seq_shift, map_map. do 4 f_equal.
        apply map_ext. intros i. f_equal. unfold measured. cbn [clock_pos]. lia.
      * rewrite measured_succ. reflexivity.
    + rewrite measure_refused by exact Hg. cbn [Nat.eqb]. rewrite measured_0.
      reflexivity.
Qed.

Lemma median_of_repeats_granted n w :
  1 <= n ->
  median_of_repeats n measure w =
  let j := leading_true g (allocs w) (Z.to_nat n) in
  if (j =? Z.to_nat n)%nat
  then (Ok (Some (Val (the_median
                         (map (fun i => val (2 * i + clock_pos w)%nat)
                            (seq 0 (Z.to_nat n)))))),
        measured (Z.to_nat n) c r w)
  else (Raise MemoryError, entered c (measured j c r w)).
Proof.
  intros Hn. cbv zeta. unfold median_of_repeats. unfold bind at 1.
  rewrite granted_loop, PyRangeFacts.length_range2. cbv zeta.
  replace (n - 0) with n by ring.
  destruct (leading_true g (allocs w) (Z.to_nat n) =? Z.to_nat n)%nat; [| reflexivity].
  cbn [app]. unfold bind, median, the_median.
  destruct (MedianFacts.median_value_nonempty
              (map (fun i => val (2 * i + clock_pos w)%nat) (seq 0 (Z.to_nat n))))
    as (m & Hm).
  { destruct (Z.to_nat n) eqn:E; [lia | discriminate]. }
  rewrite Hm. reflexivity.
Qed.

End GrantedLoop.

Lemma leading_true_le (g : nat -> bool) k : forall a, (leading_true g a k <= k)%nat.
Proof.
  induction k as [| k IH]; intros a; cbn [leading_true]; [lia |].
  destruct (g a); [specialize (IH (S a)) |]; lia.
Qed.

Lemma leading_true_all (g : nat -> bool) k :
  (forall a, g a = true) -> forall a, leading_true g a k = k.
Proof.
  intros Hg. induction k as [| k IH]; intros a; cbn [leading_true]; [reflexivity |].
  rewrite Hg, IH. reflexivity.
Qed.

(** A loop over repeats stops at the first call that raises. *)
Lemma loop_stops {A} (measure : M Q) (e : exn) w xs wj w' :
  produces measure w xs wj -> measure wj = (Raise e, w') ->
  forall (l : list A) samples, (length xs < length l)%nat ->
    for_fold l (fun _ samples => x <- measure ;; ret (samples ++ [x])) samples w =
    (Raise e, w').
Proof.
  intros Hp Hraise. induction Hp as [w | w x w1 xs w2 Hm Hp IH]; intros l samples Hl.
  - destruct l as [| a l]; [cbn in Hl; lia |].
    cbn [for_fold]. unfold bind. rewrite Hraise. reflexivity.
  - destruct l as [| a l]; [cbn in Hl; lia |].
    cbn [for_fold]. unfold bind at 1. unfold bind at 1. rewrite Hm. unfold ret at 1.
    apply IH; [exact Hraise | cbn [length] in Hl; lia].
Qed.

Lemma median_of_repeats_stops (measure : M Q) (e : exn) n w xs wj w' :
  produces measure w xs wj -> measure wj = (Raise e, w') ->
  Z.of_nat (length xs) < n ->
  median_of_repeats n measure w = (Raise e, w').
Proof.
  intros Hp Hraise Hn. unfold median_of_repeats. unfold bind at 1.
  rewrite (loop_stops measure e w xs wj w' Hp Hraise); [reflexivity |].
  rewrite PyRangeFacts.length_range2. lia.
Qed.

End RepeatFacts.

(** ** The loop body and the sweep *)

Section SweepFacts.

Variable env : Env.

Lemma produces_measured (measure : M Q) c r (val : nat -> Q) :
  (forall w, measure w = (Ok (val (clock_pos w)), measured 1 c r w)) ->
  forall k w,
    produces measure w (map (fun i => val (2 * i + clock_pos w)%nat) (seq 0 k))
      (measured k c r w).
Proof.
  intros Hm. induction k as [| k IH]; intros w.
  - rewrite measured_0. constructor.
  - cbn [seq map]. econstructor; [apply Hm |].
    rewrite <- seq_shift, map_map.
    specialize (IH (measured 1 c r w)). rewrite measured_succ in IH.
    replace (map (fun i => val (2 * S i + clock_pos w)%nat) (seq 0 k))
      with (map (fun i => val (2 * i + clock_pos (measured 1 c r w))%nat) (seq 0 k));
      [exact IH |].
    apply map_ext. intros i. f_equal. unfold measured. cbn [clock_pos]. lia.
Qed.

Lemma block_run_le c k w : (block_run env c k w <= Z.to_nat k)%nat.
Proof. unfold block_run. apply leading_true_le. Qed.

Lemma block_run_can_alloc c k w :
  can_alloc env (call_kind c) (call_num_elements c) = true ->
  block_run env c k w = Z.to_nat k.
Proof.
  intros Ha. unfold block_run. apply leading_true_all.
  intros a. apply (can_alloc_granted env _ _ a Ha).
Qed.

(** The [try] block of the array at an element count that is an index:
    it never raises. *)
Lemma array_block_eq args stride n w :
  1 <= repeats args -> 0 < stride -> 1 <= n -> fits_index ArrayQ n = true ->
  array_block env args stride n w =
  (Ok (Some (block_value env (array_call args stride n) (repeats args) w)),
   block_end env (array_call args stride n) (repeats args) w).
Proof.
  intros Hr Hs Hn Hf. unfold array_block, try_except_MemoryError.
  rewrite (median_of_repeats_granted _
             (Call ArrayQ n stride (min_accesses args) (warmup args))
             (reads_of_measure n stride (min_accesses args) (warmup args))
             (sample_at env (total_accesses n stride (min_accesses args)))
             (fun a => granted env a ArrayQ n)); [| | | exact Hr].
  - unfold block_value, block_end, block_run, samples_from. cbv zeta.
    cbn [array_call call_kind call_num_elements call_stride_elems call_min_accesses
         call_warmup].
    destruct (leading_true _ _ _ =? _)%nat eqn:E; [| reflexivity].
    apply Nat.eqb_eq in E. rewrite E. reflexivity.
  - intros w0 Hg. apply measure_stride_reads_array_granted; assumption.
  - intros w0 Hg. apply measure_stride_reads_array_refused; assumption.
Qed.

Lemma list_block_eq args stride n w :
  1 <= repeats args -> 0 < stride -> 1 <= n -> fits_index PyList n = true ->
  list_block env args stride n w =
  (Ok (Some (block_value env (list_call args stride n) (repeats args) w)),
   block_end env (list_call args stride n) (repeats args) w).
Proof.
  intros Hr Hs Hn Hf. unfold list_block, try_except_MemoryError.
  rewrite (median_of_repeats_granted _
             (Call PyList n stride (min_accesses args / 10) (warmup args))
             (reads_of_measure n stride (min_accesses args / 10) (warmup args))
             (sample_at env (total_accesses n stride (min_accesses args / 10)))
             (fun a => granted env a PyList n)); [| | | exact Hr].
  - unfold block_value, block_end, block_run, samples_from. cbv zeta.
    cbn [list_call call_kind call_num_elements call_stride_elems call_min_accesses
         call_warmup].
    destruct (leading_true _ _ _ =? _)%nat eqn:E; [| reflexivity].
    apply Nat.eqb_eq in E. rewrite E. reflexivity.
  - intros w0 Hg. apply measure_stride_reads_list_granted; assumption.
  - intros w0 Hg. apply measure_stride_reads_list_refused; assumption.
Qed.

Lemma cell_of_block_value c k w :
  cell_of (Some (block_value env c k w)) = block_value env c k w.
Proof. unfold block_value. destruct (_ =? _)%nat; reflexivity. Qed.

(** A size with fewer than 8 elements leaves the world as it is. *)
Lemma sweep_body_skip ua ul args stride size w :
  size / element_size < 8 ->
  sweep_body env ua ul args stride size w = (Ok tt, w).
Proof.
  intros H. unfold sweep_body.
  replace (Z.max 1 (size / element_size) <? 8) with true
    by (symmetry; apply Z.ltb_lt; lia).
  reflexivity.
Qed.

(** Any other size whose element count is an index is measured and
    printed. *)
Lemma sweep_body_eq ua ul args stride size w :
  1 <= repeats args -> 0 < stride -> 8 <= size / element_size ->
  (ua = true -> fits_index ArrayQ (size / element_size) = true) ->
  (ul = true -> fits_index PyList (size / element_size) = true) ->
  sweep_body env ua ul args stride size w =
  (Ok tt, body_end env ua ul args stride size w).
Proof.
  intros Hr Hs Hn Hfa Hfl. unfold sweep_body, body_end.
  replace (Z.max 1 (size / element_size) <? 8) with false
    by (symmetry; apply Z.ltb_ge; lia).
  replace (Z.max 1 (size / element_size)) with (size / element_size) by lia.
  set (n := size / element_size) in *.
  unfold bind at 1.
  destruct ua.
  - rewrite array_block_eq by (auto; lia). unfold bind at 1.
    destruct ul.
    + rewrite list_block_eq by (auto; lia). rewrite !cell_of_block_value. reflexivity.
    + unfold ret at 1. rewrite !cell_of_block_value. reflexivity.
  - unfold ret at 1. unfold bind at 1.
    destruct ul.
    + rewrite list_block_eq by (auto; lia). rewrite !cell_of_block_value. reflexivity.
    + reflexivity.
Qed.

Lemma fits_index_small kind n : 0 <= n <= ssize_max -> fits_index kind n = true.
Proof.
  intros H. unfold fits_index, ssize_max in *. destruct kind.
  - apply andb_true_iff. split; apply Z.leb_le; lia.
  - apply Z.leb_le. lia.
Qed.

End SweepFacts.

Section SweepEndFacts.

Variable env : Env.

Lemma stdout_block_end c k w : stdout (block_end env c k w) = stdout w.
Proof. unfold block_end. cbv zeta. destruct (_ =? _)%nat; reflexivity. Qed.

Lemma stderr_block_end c k w : stderr (block_end env c k w) = stderr w.
Proof. unfold block_end. cbv zeta. destruct (_ =? _)%nat; reflexivity. Qed.

Lemma calls_block_end c k w :
  calls (block_end env c k w) = calls w ++ repeat c (block_count env c k w).
Proof.
  unfold block_end, block_count. cbv zeta. destruct (_ =? _)%nat; [reflexivity |].
  cbn [entered measured calls repeat]. rewrite <- app_assoc, repeat_cons.
  reflexivity.
Qed.

Lemma stdout_body_end ua ul args stride size w :
  exists ca cl,
    stdout (body_end env ua ul args stride size w) = stdout w ++ [Row size ca cl].
Proof.
  unfold body_end. cbn [printed stdout].
  do 2 eexists. f_equal. destruct ua, ul; rewrite ?stdout_block_end; reflexivity.
Qed.

Lemma stderr_body_end ua ul args stride size w :
  stderr (body_end env ua ul args stride size w) = stderr w.
Proof.
  unfold body_end. cbn [printed stderr].
  destruct ua, ul; rewrite ?stderr_block_end; reflexivity.
Qed.

(** The loop over sizes that are skipped or have an index as element
    count never raises, given a positive number of repeats and a positive
    stride. *)
Lemma sweep_eq ua ul args stride sizes : forall w,
  1 <= repeats args -> 0 < stride ->
  Forall (fun size => size / element_size <= ssize_max) sizes ->
  sweep env ua ul args stride sizes w = (Ok tt, sweep_end env ua ul args stride sizes w).
Proof.
  unfold sweep, sweep_end.
  induction sizes as [| size sizes IH]; intros w Hr Hs Hall; [reflexivity |].
  inversion Hall as [| ? ? Hsz Hrest]; subst.
  cbn [for_fold fold_left]. unfold bind at 1.
  destruct (size / element_size <? 8) eqn:E.
  - apply Z.ltb_lt in E. rewrite sweep_body_skip by exact E. apply IH; assumption.
  - apply Z.ltb_ge in E.
    rewrite sweep_body_eq by (try assumption; intros _; apply fits_index_small; lia).
    apply IH; assumption.
Qed.

Lemma stdout_sweep_end ua ul args stride sizes : forall w,
  exists out,
    stdout (sweep_end env ua ul args stride sizes w) = stdout w ++ out /\
    row_sizes out = filter (fun s => negb (s / element_size <? 8)) sizes.
Proof.
  unfold sweep_end.
  induction sizes as [| size sizes IH]; intros w.
  - exists []. cbn. rewrite app_nil_r. auto.
  - cbn [fold_left filter]. destruct (size / element_size <? 8) eqn:E; cbn [negb].
    + apply IH.
    + destruct (stdout_body_end ua ul args stride size w) as (ca & cl & Hb).
      destruct (IH (body_end env ua ul args stride size w)) as (out & Ho & Hs).
      exists (Row size ca cl :: out). split.
      * rewrite Ho, Hb, <- app_assoc. reflexivity.
      * cbn. rewrite <- Hs. reflexivity.
Qed.

Lemma stderr_sweep_end ua ul args stride sizes : forall w,
  stderr (sweep_end env ua ul args stride sizes w) = stderr w.
Proof.
  unfold sweep_end.
  induction sizes as [| size sizes IH]; intros w; [reflexivity |].
  cbn [fold_left]. destruct (size / element_size <? 8).
  - apply IH.
  - rewrite IH. apply stderr_body_end.
Qed.

End SweepEndFacts.

(** ** The sizes of the sweep *)

Module SizeFacts.

Lemma pow_min_ge_10 (b : Z) : 10 <= int_log2 (Z.max 1024 b).
Proof.
  unfold int_log2. change 10 with (Z.log2 1024). apply Z.log2_le_mono. lia.
Qed.

(** The sizes are the powers of two of the exponents from [pow_min] to
    [pow_max]. *)
Lemma in_generate_sizes min_kb max_bytes size :
  In size (generate_sizes min_kb max_bytes) <->
  exists p, int_log2 (Z.max 1024 (min_kb * 1024)) <= p <= int_log2 (Z.max 1024 max_bytes) /\
            size = 2 ^ p.
Proof.
  unfold generate_sizes. cbv zeta. rewrite in_map_iff. split.
  - intros (p & <- & Hp). apply PyRangeFacts.in_range2 in Hp.
    exists p. split; [lia |]. apply Z.shiftl_1_l.
  - intros (p & Hp & ->). exists p. split; [apply Z.shiftl_1_l |].
    apply PyRangeFacts.in_range2. lia.
Qed.

Lemma pow2_from_10 (p : Z) :
  10 <= p -> 1024 <= 2 ^ p /\ 2 ^ p mod 8 = 0 /\ 128 <= 2 ^ p / 8.
Proof.
  intros Hp.
  assert (E : 2 ^ p = 2 ^ (p - 3) * 8).
  { change 8 with (2 ^ 3). rewrite <- Z.pow_add_r by lia. f_equal. lia. }
  assert (H7 : 2 ^ 7 <= 2 ^ (p - 3)) by (apply Z.pow_le_mono_r; lia).
  change (2 ^ 7) with 128 in H7.
  rewrite E. rewrite Z.mod_mul, Z.div_mul by lia. lia.
Qed.

Lemma filter_all {A} (f : A -> bool) (l : list A) :
  (forall x, In x l -> f x = true) -> filter f l = l.
Proof.
  induction l as [| a l IH]; intros H; [reflexivity |].
  cbn [filter]. rewrite (H a) by (left; reflexivity).
  f_equal. apply IH. intros x Hx. apply H. right. exact Hx.
Qed.

(** What the sweep does guarantee: strictly increasing powers of two, none
    above [max(1024, max_bytes)], the first one being the largest power of
    two that is at most [max(1024, min_bytes)]. *)
Lemma increasing_map_seq (f : nat -> Z) :
  (forall i j, (i < j)%nat -> f i < f j) ->
  forall n i, StronglySorted Z.lt (map f (seq i n)).
Proof.
  intros Hf. induction n as [| n IH]; intros i; cbn [seq map]; constructor.
  - apply IH.
  - apply Forall_forall. intros x Hx. apply in_map_iff in Hx.
    destruct Hx as (j & <- & Hj). apply in_seq in Hj. apply Hf. lia.
Qed.

Lemma generate_sizes_increasing min_kb max_bytes :
  StronglySorted Z.lt (generate_sizes min_kb max_bytes).
Proof.
  unfold generate_sizes. cbv zeta. rewrite PyRangeFacts.range2_closed, map_map.
  apply increasing_map_seq. intros i j Hij. rewrite !Z.shiftl_1_l.
  pose proof (pow_min_ge_10 (min_kb * 1024)).
  apply Z.pow_lt_mono_r; lia.
Qed.

Lemma generate_sizes_upper min_kb max_bytes size :
  In size (generate_sizes min_kb max_bytes) -> size <= Z.max 1024 max_bytes.
Proof.
  intros Hin. apply in_generate_sizes in Hin. destruct Hin as (p & Hp & ->).
  pose proof (pow_min_ge_10 (min_kb * 1024)).
  destruct (Z.log2_spec (Z.max 1024 max_bytes)) as (Hlo & _); [lia |].
  unfold int_log2 in *. etransitivity; [| exact Hlo].
  apply Z.pow_le_mono_r; lia.
Qed.

Lemma generate_sizes_lower min_kb max_bytes size :
  In size (generate_sizes min_kb max_bytes) ->
  let pow_min := int_log2 (Z.max 1024 (min_kb * 1024)) in
  2 ^ pow_min <= size /\
  2 ^ pow_min <= Z.max 1024 (min_kb * 1024) < 2 ^ (pow_min + 1).
Proof.
  intros Hin. cbv zeta. apply in_generate_sizes in Hin. destruct Hin as (p & Hp & ->).
  pose proof (pow_min_ge_10 (min_kb * 1024)).
  split; [apply Z.pow_le_mono_r; lia |].
  unfold int_log2 in *. apply Z.log2_spec. lia.
Qed.

End SizeFacts.

(** ** Whole runs *)

Section RunFacts.

Variable env : Env.

Lemma ordinary_sizes args size :
  ordinary_run args ->
  In size (generate_sizes (min_kb args) (max_bytes_of args)) ->
  128 <= size / element_size <= ssize_max.
Proof.
  intros (_ & _ & Hmax) Hin.
  apply SizeFacts.in_generate_sizes in Hin. destruct Hin as (p & Hp & ->).
  pose proof (SizeFacts.pow_min_ge_10 (min_kb args * 1024)) as H10.
  destruct (SizeFacts.pow2_from_10 p ltac:(lia)) as (_ & _ & H128).
  assert (Hlog : int_log2 (Z.max 1024 (max_bytes_of args)) < 47).
  { unfold int_log2. apply Z.log2_lt_pow2; lia. }
  assert (Hpow : 2 ^ p <= 2 ^ 46) by (apply Z.pow_le_mono_r; lia).
  unfold element_size, ssize_max in *. split; [exact H128 |].
  assert (2 ^ p / 8 <= 2 ^ 46 / 8) by (apply Z.div_le_mono; lia).
  change (2 ^ 46 / 8) with (2 ^ 43) in H.
  assert (2 ^ 43 <= 2 ^ 63 - 1) by (vm_compute; discriminate).
  lia.
Qed.

(** [main] on ordinary bounds and with a positive number of repeats
    returns 0. *)
Lemma main_eq args w :
  1 <= repeats args -> ordinary_run args ->
  main env args w =
  (Ok 0,
   sweep_end env (use_array_of args) (use_list_of args) args (stride_elems_of args)
     (generate_sizes (min_kb args) (max_bytes_of args))
     (printed (Header (header_cols (csv args) (use_array_of args) (use_list_of args))) w)).
Proof.
  intros Hr Ho. unfold main. unfold bind at 1. unfold print_stdout at 1.
  fold (printed (Header (header_cols (csv args) (use_array_of args) (use_list_of args))) w).
  unfold bind at 1. rewrite sweep_eq; [reflexivity | exact Hr | |].
  - unfold stride_elems_of. lia.
  - apply Forall_forall. intros size Hin. apply (ordinary_sizes args size Ho Hin).
Qed.

End RunFacts.

(** ** What one size costs *)

Section BodyFacts.

Variable env : Env.

Lemma clock_pos_block_end c k w :
  clock_pos (block_end env c k w) = (2 * block_run env c k w + clock_pos w)%nat.
Proof. unfold block_end. cbv zeta. destruct (_ =? _)%nat; reflexivity. Qed.

Lemma reads_block_end c k w :
  reads (block_end env c k w) =
  reads w + Z.of_nat (block_run env c k w) *
            reads_of_measure (call_num_elements c) (call_stride_elems c)
              (call_min_accesses c) (call_warmup c).
Proof. unfold block_end. cbv zeta. destruct (_ =? _)%nat; reflexivity. Qed.

Lemma block_count_bounds c k w :
  1 <= k ->
  (block_run env c k w <= block_count env c k w <= S (block_run env c k w))%nat /\
  (1 <= block_count env c k w <= Z.to_nat k)%nat.
Proof.
  intros Hk. unfold block_count. cbv zeta. pose proof (block_run_le env c k w) as Hle.
  destruct (_ =? _)%nat eqn:E.
  - apply Nat.eqb_eq in E. lia.
  - apply Nat.eqb_neq in E. lia.
Qed.

(** At a size that is not skipped and whose element count is an index,
    the body calls each enabled measurement function between once and
    [repeats] times, the calls that return read the clock twice and walk
    the buffer, and one row is printed. *)
Lemma sweep_body_measured args (ua ul : bool) stride size w0 :
  8 <= size / element_size <= ssize_max -> 1 <= repeats args -> 0 < stride ->
  exists w1 ca cl (ja jl ka kl : nat),
    sweep_body env ua ul args stride size w0 = (Ok tt, w1) /\
    stdout w1 = stdout w0 ++ [Row size ca cl] /\
    calls w1 =
      calls w0 ++ repeat (array_call args stride (size / element_size)) ka ++
      repeat (list_call args stride (size / element_size)) kl /\
    (if ua then (1 <= ka <= Z.to_nat (repeats args))%nat /\ ca <> None
     else ka = O /\ ca = None) /\
    (if ul then (1 <= kl <= Z.to_nat (repeats args))%nat /\ cl <> None
     else kl = O /\ cl = None) /\
    (ja <= ka <= S ja)%nat /\ (jl <= kl <= S jl)%nat /\
    clock_pos w1 = (2 * (ja + jl) + clock_pos w0)%nat /\
    reads w1 =
      reads w0 +
      Z.of_nat ja * reads_of_measure (size / element_size) stride (min_accesses args)
                      (warmup args) +
      Z.of_nat jl * reads_of_measure (size / element_size) stride
                      (min_accesses args / 10) (warmup args) /\
    (ua = true -> can_alloc env ArrayQ (size / element_size) = true ->
     ja = Z.to_nat (repeats args) /\ exists m, ca = Some (Val m)) /\
    (ul = true -> can_alloc env PyList (size / element_size) = true ->
     jl = Z.to_nat (repeats args) /\ exists m, cl = Some (Val m)).
Proof.
  intros Hn Hr Hs. set (n := size / element_size) in *.
  rewrite sweep_body_eq by (try assumption; try lia; intros _; apply fits_index_small; lia).
  unfold body_end. fold n.
  set (cA := array_call args stride n). set (cL := list_call args stride n).
  set (wa := if ua then block_end env cA (repeats args) w0 else w0).
  exists (printed
            (Row size
               (if ua then Some (block_value env cA (repeats args) w0) else None)
               (if ul then Some (block_value env cL (repeats args) wa) else None))
            (if ul then block_end env cL (repeats args) wa else wa)).
  exists (if ua then Some (block_value env cA (repeats args) w0) else None),
         (if ul then Some (block_value env cL (repeats args) wa) else None).
  exists (if ua then block_run env cA (repeats args) w0 else O),
         (if ul then block_run env cL (repeats args) wa else O),
         (if ua then block_count env cA (repeats args) w0 else O),
         (if ul then block_count env cL (repeats args) wa else O).
  pose proof (block_count_bounds cA (repeats args) w0 Hr) as (Ba1 & Ba2).
  pose proof (block_count_bounds cL (repeats args) wa Hr) as (Bl1 & Bl2).
  assert (Hval : forall c w, can_alloc env (call_kind c) (call_num_elements c) = true ->
            block_run env c (repeats args) w = Z.to_nat (repeats args) /\
            exists m, Some (block_value env c (repeats args) w) = Some (Val m)).
  { intros c w Hc. rewrite (block_run_can_alloc env c (repeats args) w Hc).
    split; [reflexivity |]. unfold block_value.
    rewrite (block_run_can_alloc env c (repeats args) w Hc), Nat.eqb_refl.
    eexists. reflexivity. }
  split; [reflexivity |].
  split; [cbn [printed stdout]; unfold wa; destruct ua, ul;
          rewrite ?stdout_block_end; reflexivity |].
  split; [cbn [printed calls]; unfold wa; destruct ua, ul;
          rewrite ?calls_block_end, ?app_nil_r, <- ?app_assoc; reflexivity |].
  split; [destruct ua; split; (lia || discriminate || reflexivity) |].
  split; [destruct ul; split; (lia || discriminate || reflexivity) |].
  split; [destruct ua; lia |].
  split; [destruct ul; lia |].
  split; [cbn [printed clock_pos]; unfold wa; destruct ua, ul;
          rewrite ?clock_pos_block_end; lia |].
  split; [cbn [printed reads]; unfold wa; destruct ua, ul;
          rewrite ?reads_block_end; unfold cA, cL;
          cbn [array_call list_call call_num_elements call_stride_elems
               call_min_accesses call_warmup]; lia |].
  split.
  - intros -> Ha. apply (Hval cA w0). exact Ha.
  - intros -> Hl. apply (Hval cL wa). exact Hl.
Qed.

End BodyFacts.

(** ** The recorded calls, whatever the outcome *)

Section CallFacts.

Variable env : Env.
Variable P : call -> Prop.

Lemma keeps_ret {A} (a : A) : keeps_calls P (ret a).
Proof. intros w H. exact H. Qed.

Lemma keeps_raise {A} (e : exn) : keeps_calls P (@raise A e).
Proof. intros w H. exact H. Qed.

Lemma keeps_bind {A B} (m : M A) (f : A -> M B) :
  keeps_calls P m -> (forall a, keeps_calls P (f a)) -> keeps_calls P (bind m f).
Proof.
  intros Hm Hf w H. unfold bind. specialize (Hm w H).
  destruct (m w) as [[a | e] w1]; cbn [snd] in *.
  - apply Hf, Hm.
  - exact Hm.
Qed.

Lemma keeps_try {A} (body handler : M A) :
  keeps_calls P body -> keeps_calls P handler ->
  keeps_calls P (try_except_MemoryError body handler).
Proof.
  intros Hb Hh w H. unfold try_except_MemoryError. specialize (Hb w H).
  destruct (body w) as [[a | e] w1]; cbn [snd] in *; [exact Hb |].
  destruct e; try exact Hb. apply Hh, Hb.
Qed.

Lemma keeps_for_fold {A S} (body : A -> S -> M S) (l : list A) :
  (forall x s, keeps_calls P (body x s)) ->
  forall s, keeps_calls P (for_fold l body s).
Proof.
  intros Hb. induction l as [| x l IH]; intros s; cbn [for_fold].
  - apply keeps_ret.
  - apply keeps_bind; [apply Hb | exact IH].
Qed.

Lemma keeps_if {A} (b : bool) (m1 m2 : M A) :
  keeps_calls P m1 -> keeps_calls P m2 -> keeps_calls P (if b then m1 else m2).
Proof. destruct b; auto. Qed.

Lemma keeps_print_stdout l : keeps_calls P (print_stdout l).
Proof. intros w H. exact H. Qed.

Lemma keeps_print_stderr s : keeps_calls P (print_stderr s).
Proof. intros w H. exact H. Qed.

Lemma keeps_perf_counter_ns : keeps_calls P (perf_counter_ns env).
Proof. intros w H. exact H. Qed.

Lemma keeps_getitem data i : keeps_calls P (getitem data i).
Proof.
  intros w H. unfold getitem.
  destruct ((0 <=? _) && (_ <? _)); exact H.
Qed.

Lemma keeps_floordiv a b : keeps_calls P (floordiv a b).
Proof. unfold floordiv. apply keeps_if; [apply keeps_raise | apply keeps_ret]. Qed.

Lemma keeps_truediv a b : keeps_calls P (truediv a b).
Proof. unfold truediv. apply keeps_if; [apply keeps_raise | apply keeps_ret]. Qed.

Lemma keeps_median data : keeps_calls P (median data).
Proof.
  unfold median. destruct (median_value data); [apply keeps_ret | apply keeps_raise].
Qed.

Lemma keeps_allocate kind n data : keeps_calls P (allocate env kind n data).
Proof.
  intros w H. unfold allocate. destruct (negb (fits_index kind n)); [exact H |].
  destruct (granted env (allocs w) kind n); exact H.
Qed.

Lemma keeps_enter c : P c -> keeps_calls P (enter c).
Proof.
  intros Hc w H. cbn [enter snd calls]. apply Forall_app. split; [exact H |].
  constructor; [exact Hc | constructor].
Qed.

Lemma keeps_walk data n stride s : keeps_calls P (walk data n stride s).
Proof.
  unfold walk. destruct (PyRange.range3 0 n stride); [| apply keeps_raise].
  apply keeps_for_fold. intros i s0.
  apply keeps_bind; [apply keeps_getitem | intros v; apply keeps_ret].
Qed.

Lemma keeps_timed_loops data n stride loops :
  keeps_calls P (timed_loops data n stride loops).
Proof. unfold timed_loops. apply keeps_for_fold. intros _ s. apply keeps_walk. Qed.

Lemma keeps_measure_on data n stride min_acc warm :
  keeps_calls P (measure_on env data n stride min_acc warm).
Proof.
  unfold measure_on.
  apply keeps_bind; [apply keeps_if; [apply keeps_walk | apply keeps_ret] | intros _].
  apply keeps_bind; [apply keeps_floordiv | intros q].
  apply keeps_bind; [apply keeps_floordiv | intros q'].
  apply keeps_bind; [apply keeps_perf_counter_ns | intros start].
  apply keeps_bind; [apply keeps_timed_loops | intros s].
  apply keeps_bind; [apply keeps_perf_counter_ns | intros end_].
  apply keeps_bind; [apply keeps_if; [apply keeps_print_stderr | apply keeps_ret] | intros _].
  apply keeps_truediv.
Qed.

Lemma keeps_measure_stride_reads_array n stride min_acc warm :
  P (Call ArrayQ n stride min_acc warm) ->
  keeps_calls P (measure_stride_reads_array env n stride min_acc warm).
Proof.
  intros Hc. unfold measure_stride_reads_array.
  apply keeps_bind; [apply keeps_enter, Hc | intros _].
  apply keeps_bind; [apply keeps_allocate | intros data].
  apply keeps_measure_on.
Qed.

Lemma keeps_measure_stride_reads_list n stride min_acc warm :
  P (Call PyList n stride min_acc warm) ->
  keeps_calls P (measure_stride_reads_list env n stride min_acc warm).
Proof.
  intros Hc. unfold measure_stride_reads_list.
  apply keeps_bind; [apply keeps_enter, Hc | intros _].
  apply keeps_bind; [apply keeps_allocate | intros data].
  apply keeps_measure_on.
Qed.

Lemma keeps_median_of_repeats n (measure : M Q) :
  keeps_calls P measure -> keeps_calls P (median_of_repeats n measure).
Proof.
  intros Hm. unfold median_of_repeats.
  apply keeps_bind.
  - apply keeps_for_fold. intros _ samples.
    apply keeps_bind; [exact Hm | intros x; apply keeps_ret].
  - intros samples. apply keeps_bind; [apply keeps_median | intros m; apply keeps_ret].
Qed.

End CallFacts.

Lemma keeps_main env args : keeps_calls (floor_of_kind args) (main env args).
Proof.
  unfold main.
  apply keeps_bind; [apply keeps_print_stdout | intros _].
  apply keeps_bind; [| intros _; apply keeps_ret].
  unfold sweep. apply keeps_for_fold. intros size _.
  unfold sweep_body. apply keeps_if; [apply keeps_ret |].
  apply keeps_bind.
  { apply keeps_if; [| apply keeps_ret]. unfold array_block.
    apply keeps_try; [| apply keeps_ret].
    apply keeps_median_of_repeats, keeps_measure_stride_reads_array. reflexivity. }
  intros ns_array. apply keeps_bind.
  { apply keeps_if; [| apply keeps_ret]. unfold list_block.
    apply keeps_try; [| apply keeps_ret].
    apply keeps_median_of_repeats, keeps_measure_stride_reads_list. reflexivity. }
  intros ns_list. apply keeps_print_stdout.
Qed.

(** ** Standard error, whatever the outcome *)

Section StderrFacts.

Variable env : Env.








(** On valid input a measurement function leaves standard error as it
    is, whether it returns or its constructor raises. *)
Lemma keeps_stderr_measure_stride_reads_array n stride min_acc warm :
  1 <= n -> 1 <= stride ->
  keeps_stderr (measure_stride_reads_array env n stride min_acc warm).
Proof.
  intros Hn Hs w. destruct (fits_index ArrayQ n) eqn:F.
  - destruct (granted env (allocs w) ArrayQ n) eqn:G.
    + rewrite measure_stride_reads_array_granted by (assumption || lia). reflexivity.
    + rewrite measure_stride_reads_array_refused by assumption. reflexivity.
  - rewrite measure_stride_reads_array_overflow by assumption. reflexivity.
Qed.

Lemma keeps_stderr_measure_stride_reads_list n stride min_acc warm :
  1 <= n -> 1 <= stride ->
  keeps_stderr (measure_stride_reads_list env n stride min_acc warm).
Proof.
  intros Hn Hs w. destruct (fits_index PyList n) eqn:F.
  - destruct (granted env (allocs w) PyList n) eqn:G.
    + rewrite measure_stride_reads_list_granted by (assumption || lia). reflexivity.
    + rewrite measure_stride_reads_list_refused by assumption. reflexivity.
  - rewrite measure_stride_reads_list_overflow by assumption. reflexivity.
Qed.




End StderrFacts.

(** ** The calls of a sweep *)

Section SweepCallFacts.

Variable env : Env.

Lemma calls_body_end ua ul args stride size w :
  exists ka kl : nat,
    calls (body_end env ua ul args stride size w) =
    calls w ++ calls_at args stride (size, (ka, kl)) /\
    (1 <= repeats args -> counts_ok ua ul (repeats args) (ka, kl)) /\
    counts_full env ua ul (repeats args) (size, (ka, kl)).
Proof.
  unfold body_end. cbv zeta.
  set (cA := array_call args stride (size / element_size)).
  set (cL := list_call args stride (size / element_size)).
  set (wa := if ua then block_end env cA (repeats args) w else w).
  exists (if ua then block_count env cA (repeats args) w else O),
         (if ul then block_count env cL (repeats args) wa else O).
  split; [| split].
  - unfold calls_at. cbn [printed calls fst snd]. fold cA cL. unfold wa.
    destruct ua, ul; rewrite ?calls_block_end, ?app_nil_r, <- ?app_assoc; reflexivity.
  - intros Hr. unfold counts_ok. cbn [fst snd].
    pose proof (block_count_bounds env cA (repeats args) w Hr) as (_ & Ba).
    pose proof (block_count_bounds env cL (repeats args) wa Hr) as (_ & Bl).
    split; [destruct ua | destruct ul]; (exact Ba || exact Bl || reflexivity).
  - assert (Hfull : forall c w0,
              can_alloc env (call_kind c) (call_num_elements c) = true ->
              block_count env c (repeats args) w0 = Z.to_nat (repeats args)).
    { intros c w0 Hc. unfold block_count. cbv zeta.
      rewrite (block_run_can_alloc env c (repeats args) w0 Hc), Nat.eqb_refl.
      reflexivity. }
    unfold counts_full. cbn [fst snd]. split; intros -> Hc.
    + apply (Hfull cA w), Hc.
    + apply (Hfull cL wa), Hc.
Qed.

Lemma calls_sweep_end ua ul args stride sizes : forall w,
  1 <= repeats args ->
  Forall (fun size => 8 <= size / element_size) sizes ->
  exists counts : list (nat * nat),
    length counts = length sizes /\
    Forall (counts_ok ua ul (repeats args)) counts /\
    Forall (counts_full env ua ul (repeats args)) (combine sizes counts) /\
    calls (sweep_end env ua ul args stride sizes w) =
    calls w ++ concat (map (calls_at args stride) (combine sizes counts)).
Proof.
  unfold sweep_end. induction sizes as [| size sizes IH]; intros w Hr Hall.
  - exists []. cbn. rewrite app_nil_r. auto.
  - inversion Hall as [| ? ? Hsz Hrest]; subst.
    cbn [fold_left].
    replace (size / element_size <? 8) with false by (symmetry; apply Z.ltb_ge; lia).
    destruct (calls_body_end ua ul args stride size w) as (ka & kl & Hb & Hok & Hfull).
    destruct (IH (body_end env ua ul args stride size w) Hr Hrest)
      as (counts & Hlen & Hall' & Hfull' & Hc).
    exists ((ka, kl) :: counts). split; [cbn [length]; rewrite Hlen; reflexivity |].
    split; [constructor; [apply Hok, Hr | exact Hall'] |].
    split; [cbn [combine]; constructor; [exact Hfull | exact Hfull'] |].
    rewrite Hc, Hb. cbn [combine map concat]. rewrite <- app_assoc. reflexivity.
Qed.

Lemma calls_sweep_end_incl ua ul args stride sizes c : forall w,
  In c (calls w) -> In c (calls (sweep_end env ua ul args stride sizes w)).
Proof.
  unfold sweep_end. induction sizes as [| size sizes IH]; intros w Hin; [exact Hin |].
  cbn [fold_left]. apply IH. destruct (size / element_size <? 8); [exact Hin |].
  destruct (calls_body_end ua ul args stride size w) as (ka & kl & Hb & _ & _).
  rewrite Hb. apply in_or_app. left. exact Hin.
Qed.

(** With a positive number of repeats every unskipped size of the sweep
    leaves a call of each enabled kind. *)
Lemma in_calls_sweep_end ua ul args stride sizes size : forall w,
  1 <= repeats args -> In size sizes -> 8 <= size / element_size ->
  (ua = true ->
   In (array_call args stride (size / element_size))
     (calls (sweep_end env ua ul args stride sizes w))) /\
  (ul = true ->
   In (list_call args stride (size / element_size))
     (calls (sweep_end env ua ul args stride sizes w))).
Proof.
  intros w Hr Hin Hn. revert w.
  induction sizes as [| s sizes IH]; intros w; [destruct Hin |].
  destruct Hin as [-> | Hin]; [| unfold sweep_end; cbn [fold_left]; apply (IH Hin)].
  unfold sweep_end. cbn [fold_left].
  replace (size / element_size <? 8) with false by (symmetry; apply Z.ltb_ge; lia).
  fold (sweep_end env ua ul args stride sizes (body_end env ua ul args stride size w)).
  destruct (calls_body_end ua ul args stride size w) as (ka & kl & Hb & Hok & _).
  specialize (Hok Hr). unfold counts_ok in Hok. cbn [fst snd] in Hok.
  destruct Hok as (Ha & Hl).
  split; intros ->; apply calls_sweep_end_incl; rewrite Hb; apply in_or_app; right;
    unfold calls_at; cbn [fst snd]; apply in_or_app.
  - left. destruct ka; [lia | left; reflexivity].
  - right. destruct kl; [lia | left; reflexivity].
Qed.


End SweepCallFacts.

Lemma ordinary_small_args : ordinary_run small_args.
Proof.
  unfold ordinary_run. split; [| split; vm_compute; auto].
  cbn [small_args max_gb]. exists 1, (-16). split; [reflexivity |].
  split; [lia | reflexivity].
Qed.

(** * The claims *)

(** C1: the sweep is claimed to start at the smallest power of two that is
    at least [max(1024, min_bytes)] and to stay within the bounds.  With
    [--min-kb 3 --max-mb 1] the code starts at 2048, which is below the
    minimum of 3072 bytes: the lower exponent is rounded down. *)
Theorem generate_sizes_starts_below_minimum :
  generate_sizes 3 (1 * 1024 * 1024) =
  [2048; 4096; 8192; 16384; 32768; 65536; 131072; 262144; 524288; 1048576] /\
  2048 < Z.max 1024 (3 * 1024).
Proof. split; [vm_compute; reflexivity | lia]. Qed.

(** C2: inverted bounds are claimed to give the empty sweep.  With
    [--min-kb 3072 --max-mb 2] the bounds are inverted after the floor
    (3 MB above 2 MB) and the code still yields one size. *)
Theorem generate_sizes_inverted_bounds_not_empty :
  Z.max 1024 (3072 * 1024) > Z.max 1024 (2 * 1024 * 1024) /\
  generate_sizes 3072 (2 * 1024 * 1024) = [2097152].
Proof. split; [lia | vm_compute; reflexivity]. Qed.

(** C3: for [min_accesses >= 1] and [accesses_per_sweep >= 1] the loop
    count times the accesses per sweep reaches [min_accesses], and the loop
    count is the least positive integer that does; a measurement performs
    that many timed walks.  At 1000 elements, stride 3 and a floor of 100
    the accesses per sweep are 334 and the loop count is 1. *)
Theorem loop_count_is_least (min_acc apl : Z) :
  1 <= min_acc -> 1 <= apl ->
  1 <= loops_for min_acc apl /\
  min_acc <= loops_for min_acc apl * apl /\
  (forall k, 1 <= k -> min_acc <= k * apl -> loops_for min_acc apl <= k) /\
  (forall env data n stride w,
     0 < stride -> 1 <= n -> length data = Z.to_nat n ->
     Forall (fun v => 0 <= v) data -> accesses_per_loop n stride = apl ->
     reads (snd (measure_on env data n stride min_acc false w)) =
     reads w + loops_for min_acc apl * apl) /\
  accesses_per_loop 1000 3 = 334 /\ loops_for 100 334 = 1.
Proof.
  intros Hm Ha.
  pose proof (PyRangeFacts.ceil_div_formula min_acc apl ltac:(lia)) as Hc.
  unfold is_ceil_div in Hc.
  assert (Hq : 1 <= (min_acc + apl - 1) / apl) by (apply Z.div_le_lower_bound; lia).
  assert (E : loops_for min_acc apl = (min_acc + apl - 1) / apl)
    by (unfold loops_for; lia).
  rewrite E. repeat split; try lia; try reflexivity.
  - nia.
  - intros env data n stride w Hs Hn Hl Hd Hapl.
    rewrite measure_on_ok by assumption. cbn [snd reads].
    unfold reads_of_measure. rewrite Hapl, E. lia.
Qed.

Lemma loop_count_is_least_witness :
  1 <= 250 /\ 1 <= 100 /\
  1 <= loops_for 250 100 /\ 250 <= loops_for 250 100 * 100 /\
  (forall k, 1 <= k -> 250 <= k * 100 -> loops_for 250 100 <= k).
Proof.
  split; [lia |]. split; [lia |].
  destruct (loop_count_is_least 250 100) as (H1 & H2 & H3 & _); [lia | lia |].
  split; [exact H1 |]. split; [exact H2 | exact H3].
Defined.



Lemma default_repeats : repeats default_args = 3.
Proof. reflexivity. Qed.

(** C5: at a size that is measured, when the buffers of the enabled kinds
    can be allocated, the value shown for a kind is the statistical median
    of the samples that the [repeats] successive calls of its measurement
    function return. *)
Theorem reported_value_is_median env args (ua ul : bool) stride size w :
  1 <= repeats args -> 0 < stride -> 8 <= size / element_size ->
  (ua = true -> can_alloc env ArrayQ (size / element_size) = true) ->
  (ul = true -> can_alloc env PyList (size / element_size) = true) ->
  exists wa wl ca cl,
    sweep_body env ua ul args stride size w = (Ok tt, printed (Row size ca cl) wl) /\
    (if ua then
       exists samples m,
         produces (measure_stride_reads_array env (size / element_size) stride
                     (min_accesses args) (warmup args)) w samples wa /\
         Z.of_nat (length samples) = repeats args /\
         is_median samples m /\ ca = Some (Val m)
     else wa = w /\ ca = None) /\
    (if ul then
       exists samples m,
         produces (measure_stride_reads_list env (size / element_size) stride
                     (min_accesses args / 10) (warmup args)) wa samples wl /\
         Z.of_nat (length samples) = repeats args /\
         is_median samples m /\ cl = Some (Val m)
     else wl = wa /\ cl = None).
Proof.
  intros Hr Hs Hn Ha Hl. set (n := size / element_size) in *.
  assert (Hblock : forall (measure : M Q) c w0,
    call_num_elements c = n ->
    can_alloc env (call_kind c) n = true ->
    (forall w1, measure w1 =
       (Ok (sample_at env (total_accesses n (call_stride_elems c) (call_min_accesses c))
              (clock_pos w1)),
        measured 1 c (reads_of_measure n (call_stride_elems c) (call_min_accesses c)
                        (call_warmup c)) w1)) ->
    exists samples m,
      produces measure w0 samples (block_end env c (repeats args) w0) /\
      Z.of_nat (length samples) = repeats args /\ is_median samples m /\
      Some (block_value env c (repeats args) w0) = Some (Val m)).
  { intros measure c w0 Hc Hc' Hm.
    unfold block_end, block_value. cbv zeta.
    rewrite block_run_can_alloc by (rewrite Hc; exact Hc').
    rewrite Nat.eqb_refl, Hc.
    set (samples := samples_from env
                      (total_accesses n (call_stride_elems c) (call_min_accesses c))
                      (clock_pos w0) (Z.to_nat (repeats args))).
    destruct (MedianFacts.median_value_nonempty samples) as (m & Hmed).
    { unfold samples, samples_from. destruct (Z.to_nat (repeats args)) eqn:E;
        [lia | discriminate]. }
    exists samples, m. split; [| split; [| split]].
    - apply (produces_measured measure c _ _ Hm).
    - unfold samples, samples_from. rewrite length_map, length_seq. lia.
    - apply MedianFacts.median_value_spec, Hmed.
    - unfold the_median. rewrite Hmed. reflexivity. }
  assert (Harray : ua = true -> forall w0, exists samples m,
    produces (measure_stride_reads_array env n stride (min_accesses args) (warmup args))
      w0 samples (block_end env (array_call args stride n) (repeats args) w0) /\
    Z.of_nat (length samples) = repeats args /\ is_median samples m /\
    Some (block_value env (array_call args stride n) (repeats args) w0) = Some (Val m)).
  { intros Hua w0. apply Hblock; [reflexivity | apply Ha, Hua |].
    intros w1. cbn [array_call list_call call_stride_elems call_min_accesses call_warmup].
    apply measure_stride_reads_array_ok; [exact Hs | lia |]. apply Ha, Hua. }
  assert (Hlist : ul = true -> forall w0, exists samples m,
    produces (measure_stride_reads_list env n stride (min_accesses args / 10) (warmup args))
      w0 samples (block_end env (list_call args stride n) (repeats args) w0) /\
    Z.of_nat (length samples) = repeats args /\ is_median samples m /\
    Some (block_value env (list_call args stride n) (repeats args) w0) = Some (Val m)).
  { intros Hul w0. apply Hblock; [reflexivity | apply Hl, Hul |].
    intros w1. cbn [array_call list_call call_stride_elems call_min_accesses call_warmup].
    apply measure_stride_reads_list_ok; [exact Hs | lia |]. apply Hl, Hul. }
  rewrite sweep_body_eq;
    [| assumption | assumption | assumption
     | intros Hu; apply (can_alloc_granted env ArrayQ n O (Ha Hu))
     | intros Hu; apply (can_alloc_granted env PyList n O (Hl Hu))].
  unfold body_end. fold n.
  destruct ua, ul; do 4 eexists;
    (split; [reflexivity |]); split;
    solve [ apply Harray; reflexivity | apply Hlist; reflexivity | split; reflexivity ].
Qed.

Lemma reported_value_is_median_witness :
  1 <= repeats small_args /\
  exists wa wl ca cl,
    sweep_body small_env true false small_args 8 1024 fresh_world =
    (Ok tt, printed (Row 1024 ca cl) wl) /\
    (exists samples m,
       produces (measure_stride_reads_array small_env (1024 / element_size) 8
                   (min_accesses small_args) (warmup small_args))
         fresh_world samples wa /\
       Z.of_nat (length samples) = repeats small_args /\
       is_median samples m /\ ca = Some (Val m)) /\
    wl = wa /\ cl = None.
Proof.
  split; [vm_compute; discriminate |].
  apply (reported_value_is_median small_env small_args true false 8 1024 fresh_world).
  - vm_compute. discriminate.
  - lia.
  - vm_compute. discriminate.
  - reflexivity.
  - reflexivity.
Defined.

(** C6: when the construction of a buffer raises [MemoryError] at a size,
    in the first repeat or in a later one, the [try] block of that kind
    gives not-a-number instead of raising, the body prints the row of the
    size with [nan] in the cell of that kind, and the loop goes on with
    the remaining sizes.  A run on ordinary bounds returns 0 with one row
    for every size of the sweep, whatever the allocator grants. *)
Theorem allocation_failure_gives_nan env args (ua ul : bool) stride size w :
  0 < stride -> 8 <= size / element_size ->
  (forall samples wj,
     ua = true ->
     produces (measure_stride_reads_array env (size / element_size) stride
                 (min_accesses args) (warmup args)) w samples wj ->
     Z.of_nat (length samples) < repeats args ->
     fst (new_array env (size / element_size)
            (snd (enter (array_call args stride (size / element_size)) wj))) =
     Raise MemoryError ->
     array_block env args stride (size / element_size) w =
     (Ok (Some NaN), entered (array_call args stride (size / element_size)) wj) /\
     exists cl w1,
       sweep_body env ua ul args stride size w = (Ok tt, w1) /\
       stdout w1 = stdout w ++ [Row size (Some NaN) cl] /\
       forall rest,
         sweep env ua ul args stride (size :: rest) w =
         sweep env ua ul args stride rest w1) /\
  (forall samples wa wj,
     ul = true ->
     wa = snd ((if ua then array_block env args stride (size / element_size)
                else ret None) w) ->
     produces (measure_stride_reads_list env (size / element_size) stride
                 (min_accesses args / 10) (warmup args)) wa samples wj ->
     Z.of_nat (length samples) < repeats args ->
     fst (new_list env (size / element_size)
            (snd (enter (list_call args stride (size / element_size)) wj))) =
     Raise MemoryError ->
     list_block env args stride (size / element_size) wa =
     (Ok (Some NaN), entered (list_call args stride (size / element_size)) wj) /\
     exists ca w1,
       sweep_body env ua ul args stride size w = (Ok tt, w1) /\
       stdout w1 = stdout w ++ [Row size ca (Some NaN)] /\
       forall rest,
         sweep env ua ul args stride (size :: rest) w =
         sweep env ua ul args stride rest w1) /\
  (forall w0, 1 <= repeats args -> ordinary_run args ->
     exists w' out,
       main env args w0 = (Ok 0, w') /\
       stdout w' =
       stdout w0 ++
       Header (header_cols (csv args) (use_array_of args) (use_list_of args)) :: out /\
       row_sizes out = generate_sizes (min_kb args) (max_bytes_of args)).
Proof.
  intros Hs Hn. set (n := size / element_size) in *.
  assert (Hcont : forall w1, sweep_body env ua ul args stride size w = (Ok tt, w1) ->
            forall rest, sweep env ua ul args stride (size :: rest) w =
                         sweep env ua ul args stride rest w1).
  { intros w1 E rest. unfold sweep. cbn [for_fold]. unfold bind. rewrite E. reflexivity. }
  assert (Hrefused : forall kind data c wj,
            fst (allocate env kind n data (snd (enter c wj))) = Raise MemoryError ->
            fits_index kind n = true /\ granted env (allocs wj) kind n = false).
  { intros kind data c wj H. unfold allocate, enter in H. cbn [snd allocs] in H.
    destruct (fits_index kind n); cbn [negb] in H; [| discriminate].
    destruct (granted env (allocs wj) kind n); [discriminate | auto]. }
  assert (Hmax : forall kind, fits_index kind n = true -> n <= ssize_max).
  { intros kind H. unfold fits_index in H. destruct kind.
    - apply andb_true_iff in H. destruct H as (_ & H). apply Z.leb_le, H.
    - apply Z.leb_le, H. }
  assert (Hskip : (Z.max 1 n <? 8) = false) by (apply Z.ltb_ge; lia).
  assert (Hmaxn : Z.max 1 n = n) by lia.
  assert (HstdA : fits_index ArrayQ n = true -> forall wb xs wk,
            produces (measure_stride_reads_array env n stride (min_accesses args)
                        (warmup args)) wb xs wk -> stdout wk = stdout wb).
  { intros Hf wb xs wk Hq. induction Hq as [w0 | w0 x w1 xs w2 Hm Hq IH]; [reflexivity |].
    rewrite IH. destruct (granted env (allocs w0) ArrayQ n) eqn:G.
    - rewrite measure_stride_reads_array_granted in Hm by (assumption || lia).
      injection Hm as _ <-. reflexivity.
    - rewrite measure_stride_reads_array_refused in Hm by assumption. discriminate. }
  assert (HstdL : fits_index PyList n = true -> forall wb xs wk,
            produces (measure_stride_reads_list env n stride (min_accesses args / 10)
                        (warmup args)) wb xs wk -> stdout wk = stdout wb).
  { intros Hf wb xs wk Hq. induction Hq as [w0 | w0 x w1 xs w2 Hm Hq IH]; [reflexivity |].
    rewrite IH. destruct (granted env (allocs w0) PyList n) eqn:G.
    - rewrite measure_stride_reads_list_granted in Hm by (assumption || lia).
      injection Hm as _ <-. reflexivity.
    - rewrite measure_stride_reads_list_refused in Hm by assumption. discriminate. }
  split; [| split].
  - intros samples wj -> Hp Hlt Hraise.
    destruct (Hrefused _ _ _ _ Hraise) as (Hf & Hg).
    pose proof (HstdA Hf _ _ _ Hp) as Hstdout.
    assert (Hblock : array_block env args stride n w =
                     (Ok (Some NaN), entered (array_call args stride n) wj)).
    { unfold array_block, try_except_MemoryError.
      rewrite (median_of_repeats_stops _ MemoryError _ w samples wj
                 (entered (array_call args stride n) wj) Hp); [reflexivity | | exact Hlt].
      apply measure_stride_reads_array_refused; assumption. }
    split; [exact Hblock |].
    assert (Hbody : exists cl w1,
              sweep_body env true ul args stride size w = (Ok tt, w1) /\
              stdout w1 = stdout w ++ [Row size (Some NaN) cl]).
    { unfold sweep_body. fold n. rewrite Hskip, Hmaxn. unfold bind at 1.
      rewrite Hblock. unfold bind at 1. destruct ul.
      - rewrite list_block_eq;
          [| lia | exact Hs | lia | apply fits_index_small; specialize (Hmax _ Hf); lia].
        do 2 eexists. split; [reflexivity |].
        cbn [print_stdout snd stdout cell_of]. rewrite stdout_block_end.
        cbn [entered stdout]. rewrite Hstdout. reflexivity.
      - do 2 eexists. split; [reflexivity |].
        cbn [print_stdout ret snd stdout cell_of entered]. rewrite Hstdout.
        reflexivity. }
    destruct Hbody as (cl & w1 & E & Hout).
    exists cl, w1. split; [exact E |]. split; [exact Hout | apply Hcont, E].
  - intros samples wa wj -> Hwa Hp Hlt Hraise.
    destruct (Hrefused _ _ _ _ Hraise) as (Hf & Hg).
    assert (Hblock : list_block env args stride n wa =
                     (Ok (Some NaN), entered (list_call args stride n) wj)).
    { unfold list_block, try_except_MemoryError.
      rewrite (median_of_repeats_stops _ MemoryError _ wa samples wj
                 (entered (list_call args stride n) wj) Hp); [reflexivity | | exact Hlt].
      apply measure_stride_reads_list_refused; assumption. }
    split; [exact Hblock |].
    pose proof (HstdL Hf _ _ _ Hp) as Hstdout.
    assert (Hbody : exists ca w1,
              sweep_body env ua true args stride size w = (Ok tt, w1) /\
              stdout w1 = stdout w ++ [Row size ca (Some NaN)]).
    { unfold sweep_body. fold n. rewrite Hskip, Hmaxn. unfold bind at 1.
      destruct ua.
      - rewrite array_block_eq in Hwa |- *;
          try solve [lia | exact Hs | apply fits_index_small; specialize (Hmax _ Hf); lia].
        cbn [snd] in Hwa. rewrite <- Hwa. unfold bind at 1. rewrite Hblock.
        do 2 eexists. split; [reflexivity |].
        cbn [print_stdout snd stdout cell_of entered]. rewrite Hstdout, Hwa.
        rewrite stdout_block_end. reflexivity.
      - unfold ret at 1. unfold ret in Hwa. cbn [snd] in Hwa. rewrite <- Hwa.
        unfold bind at 1. rewrite Hblock.
        do 2 eexists. split; [reflexivity |].
        cbn [print_stdout snd stdout cell_of entered]. rewrite Hstdout, Hwa.
        reflexivity. }
    destruct Hbody as (ca & w1 & E & Hout).
    exists ca, w1. split; [exact E |]. split; [exact Hout | apply Hcont, E].
  - intros w0 Hr Ho. rewrite main_eq by assumption.
    match goal with
    | |- context [sweep_end env ?ua' ?ul' args ?stride' ?sizes ?w1] =>
        destruct (stdout_sweep_end env ua' ul' args stride' sizes w1) as (out & Hout & Hrows)
    end.
    do 2 eexists. split; [reflexivity |]. split.
    + rewrite Hout. cbn [printed stdout]. rewrite <- app_assoc. reflexivity.
    + rewrite Hrows. apply SizeFacts.filter_all.
      intros s Hin. pose proof (ordinary_sizes args s Ho Hin) as H128.
      apply negb_true_iff, Z.ltb_ge. lia.
Qed.

Lemma allocation_failure_gives_nan_witness :
  0 < 8 /\ 8 <= 1024 / element_size /\
  exists x wj,
    produces (measure_stride_reads_array flaky_env (1024 / element_size) 8
                (min_accesses small_args) (warmup small_args)) fresh_world [x] wj /\
    Z.of_nat (length [x]) < repeats small_args /\
    fst (new_array flaky_env (1024 / element_size)
           (snd (enter (array_call small_args 8 (1024 / element_size)) wj))) =
    Raise MemoryError /\
    array_block flaky_env small_args 8 (1024 / element_size) fresh_world =
    (Ok (Some NaN), entered (array_call small_args 8 (1024 / element_size)) wj).
Proof.
  split; [lia |]. split; [vm_compute; discriminate |].
  set (r := measure_stride_reads_array flaky_env (1024 / element_size) 8
              (min_accesses small_args) (warmup small_args) fresh_world).
  exists (match fst r with Ok x => x | Raise _ => 0%Q end), (snd r).
  assert (Hp : produces (measure_stride_reads_array flaky_env (1024 / element_size) 8
                           (min_accesses small_args) (warmup small_args)) fresh_world
                 [match fst r with Ok x => x | Raise _ => 0%Q end] (snd r)).
  { econstructor; [vm_compute; reflexivity | constructor]. }
  assert (Hlt : Z.of_nat (length [match fst r with Ok x => x | Raise _ => 0%Q end]) <
                repeats small_args) by (vm_compute; reflexivity).
  assert (Hraise : fst (new_array flaky_env (1024 / element_size)
                          (snd (enter (array_call small_args 8 (1024 / element_size))
                                  (snd r)))) = Raise MemoryError)
    by (vm_compute; reflexivity).
  split; [exact Hp |]. split; [exact Hlt |]. split; [exact Hraise |].
  destruct (allocation_failure_gives_nan flaky_env small_args true true 8 1024 fresh_world)
    as (Ha & _); [lia | vm_compute; discriminate |].
  destruct (Ha _ (snd r) eq_refl Hp Hlt Hraise) as (Hb & _). exact Hb.
Defined.




(** C9: on valid input the accumulator of the timed walks is never -1: on
    the zero-filled array it is 0, on the list it is an XOR of non-negative
    integers and so non-negative; neither measurement function writes to
    standard error. *)
Theorem xor_guard_never_fires env n stride min_acc warm loops w :
  1 <= n -> 1 <= stride -> 0 <= loops ->
  (exists w', timed_loops (repeat 0 (Z.to_nat n)) n stride loops w = (Ok 0, w')) /\
  (exists s w', timed_loops (PyRange.range2 0 n) n stride loops w = (Ok s, w') /\
                0 <= s /\ (s =? -1) = false) /\
  stderr (snd (measure_stride_reads_array env n stride min_acc warm w)) = stderr w /\
  stderr (snd (measure_stride_reads_list env n stride min_acc warm w)) = stderr w.
Proof.
  intros Hn Hs Hl.
  destruct (new_array_data n) as (Hla & Hz).
  destruct (new_list_data n) as (Hll & Hp).
  assert (Hza : Forall (fun v => 0 <= v) (repeat 0 (Z.to_nat n)))
    by (eapply Forall_impl; [| exact Hz]; intros v Hv; cbn in Hv; lia).
  split; [| split; [| split]].
  - destruct (timed_loops_ok (repeat 0 (Z.to_nat n)) n stride loops w)
      as (s & E & _ & Hs0); try assumption; try lia.
    rewrite (Hs0 Hz) in E. eexists. exact E.
  - destruct (timed_loops_ok (PyRange.range2 0 n) n stride loops w)
      as (s & E & Hpos & _); try assumption; try lia.
    exists s. eexists. split; [exact E |]. split; [exact Hpos |].
    apply Z.eqb_neq. lia.
  - apply keeps_stderr_measure_stride_reads_array; assumption.
  - apply keeps_stderr_measure_stride_reads_list; assumption.
Qed.

Lemma xor_guard_never_fires_witness :
  1 <= 128 /\ 1 <= 8 /\ 0 <= 7 /\
  stderr (snd (measure_stride_reads_list small_env 128 8 100 true fresh_world)) =
  stderr fresh_world.
Proof.
  split; [lia |]. split; [lia |]. split; [lia |].
  apply (xor_guard_never_fires small_env 128 8 100 true 7 fresh_world); lia.
Defined.

(** C10: every size of the sweep is a power of two that is at least 1024,
    so a multiple of the element size with at least 128 elements, and the
    test that skips a size with fewer than 8 elements is false for it. *)
Theorem generated_sizes_are_never_skipped min_kb max_bytes size :
  In size (generate_sizes min_kb max_bytes) ->
  (exists p, 10 <= p /\ size = 2 ^ p) /\
  1024 <= size /\
  size mod element_size = 0 /\
  128 <= size / element_size /\
  (Z.max 1 (size / element_size) <? 8) = false.
Proof.
  intros Hin. apply SizeFacts.in_generate_sizes in Hin. destruct Hin as (p & Hp & ->).
  pose proof (SizeFacts.pow_min_ge_10 (min_kb * 1024)) as H10.
  destruct (SizeFacts.pow2_from_10 p ltac:(lia)) as (H1024 & Hmod & H128).
  unfold element_size.
  split; [exists p; split; [lia | reflexivity] |].
  repeat split; try assumption. apply Z.ltb_ge. lia.
Qed.

Lemma generated_sizes_are_never_skipped_witness :
  In 16384 (generate_sizes 16 65536) /\
  128 <= 16384 / element_size /\
  (Z.max 1 (16384 / element_size) <? 8) = false.
Proof.
  assert (Hin : In 16384 (generate_sizes 16 65536)) by (vm_compute; left; reflexivity).
  split; [exact Hin |].
  destruct (generated_sizes_are_never_skipped 16 65536 16384 Hin) as (_ & _ & _ & H & Hs).
  split; [exact H | exact Hs].
Defined.

(** C7: the list measurement is called with a floor of a tenth (the
    integer quotient by 10) of the configured [min_accesses] and the array
    measurement with the configured value itself.  Whatever the run does,
    every recorded call has the floor of its kind; at a measured size the
    body makes exactly these calls, at least one of each enabled kind; and
    a run on ordinary bounds with a positive number of repeats makes such
    a call of each enabled kind at every size of the sweep. *)
Theorem list_floor_is_a_tenth env args w :
  Forall (floor_of_kind args) (calls w) ->
  Forall (floor_of_kind args) (calls (snd (main env args w))) /\
  (forall (ua ul : bool) stride size w0,
     8 <= size / element_size <= ssize_max -> 1 <= repeats args -> 0 < stride ->
     exists ka kl : nat,
       calls (snd (sweep_body env ua ul args stride size w0)) =
       calls w0 ++
       repeat (Call ArrayQ (size / element_size) stride (min_accesses args)
                 (warmup args)) ka ++
       repeat (Call PyList (size / element_size) stride (min_accesses args / 10)
                 (warmup args)) kl /\
       (if ua then (1 <= ka <= Z.to_nat (repeats args))%nat else ka = O) /\
       (if ul then (1 <= kl <= Z.to_nat (repeats args))%nat else kl = O)) /\
  (1 <= repeats args -> ordinary_run args ->
   forall size, In size (generate_sizes (min_kb args) (max_bytes_of args)) ->
     (use_array_of args = true ->
      In (Call ArrayQ (size / element_size) (stride_elems_of args) (min_accesses args)
            (warmup args))
        (calls (snd (main env args w)))) /\
     (use_list_of args = true ->
      In (Call PyList (size / element_size) (stride_elems_of args)
            (min_accesses args / 10) (warmup args))
        (calls (snd (main env args w))))).
Proof.
  intros H. split; [apply keeps_main, H |]. split.
  - intros ua ul stride size w0 Hn Hr Hs.
    destruct (sweep_body_measured env args ua ul stride size w0 Hn Hr Hs)
      as (w1 & ca & cl & ja & jl & ka & kl & E & _ & Hcalls & Ha & Hl & _).
    exists ka, kl. rewrite E. cbn [snd]. split; [exact Hcalls |].
    split; [destruct ua | destruct ul]; tauto.
  - intros Hr Ho size Hin. rewrite main_eq by assumption. cbn [snd].
    pose proof (ordinary_sizes args size Ho Hin) as H128.
    apply in_calls_sweep_end; [exact Hr | exact Hin | lia].
Qed.

Lemma list_floor_is_a_tenth_witness :
  Forall (floor_of_kind small_args) (calls fresh_world) /\
  1 <= repeats small_args /\
  In 1024 (generate_sizes (min_kb small_args) (max_bytes_of small_args)) /\
  use_list_of small_args = true /\
  Forall (floor_of_kind small_args) (calls (snd (main small_env small_args fresh_world))) /\
  In (Call PyList 128 8 10 true) (calls (snd (main small_env small_args fresh_world))).
Proof.
  assert (Hw : Forall (floor_of_kind small_args) (calls fresh_world)) by constructor.
  assert (Hr : 1 <= repeats small_args) by (vm_compute; discriminate).
  assert (Hin : In 1024 (generate_sizes (min_kb small_args) (max_bytes_of small_args)))
    by (vm_compute; auto).
  assert (Hu : use_list_of small_args = true) by reflexivity.
  destruct (list_floor_is_a_tenth small_env small_args fresh_world Hw) as (Hall & _ & Hrun).
  split; [exact Hw |]. split; [exact Hr |]. split; [exact Hin |]. split; [exact Hu |].
  split; [exact Hall |].
  destruct (Hrun Hr ordinary_small_args 1024 Hin) as (_ & Hl). exact (Hl Hu).
Defined.

(** * Further properties of the code *)

(** ** [human_bytes] *)

Module HumanFacts.

Lemma ge_1024 (n : Z) (d : positive) :
  Qle_bool 1024 (n # d) = (1024 * Zpos d <=? n).
Proof. unfold Qle_bool. cbn [Qnum Qden]. rewrite Z.mul_1_r. reflexivity. Qed.

Lemma div_1024 (n : Z) (d : positive) : ((n # d) / 1024 = (n * 1 # d * 1024))%Q.
Proof. reflexivity. Qed.

(** The loop in closed form: the unit is chosen by the thresholds 1024,
    1024^2 and 1024^3, and the value is the byte count divided by the
    unit. *)
Lemma human_scaled_cases (n : Z) :
  human_scaled n =
  if n <? 1024 then (n # 1, O)
  else if n <? 1024 ^ 2 then (n * 1 # 1024, 1%nat)
  else if n <? 1024 ^ 3 then (n * 1 * 1 # 1024 ^ 2, 2%nat)
  else (n * 1 * 1 * 1 # 1024 ^ 3, 3%nat).
Proof.
  unfold human_scaled, inject_Z. cbn [length units human_loop Nat.sub Nat.ltb Nat.leb andb].
  rewrite ge_1024. destruct (Z.ltb_spec n 1024) as [H | H].
  { replace (1024 * 1 <=? n) with false by (symmetry; apply Z.leb_gt; lia). reflexivity. }
  replace (1024 * 1 <=? n) with true by (symmetry; apply Z.leb_le; lia).
  cbn [andb]. rewrite div_1024, ge_1024.
  destruct (Z.ltb_spec n (1024 ^ 2)) as [H2 | H2].
  { replace (1024 * Z.pos (1 * 1024) <=? n * 1) with false
      by (symmetry; apply Z.leb_gt; lia). reflexivity. }
  replace (1024 * Z.pos (1 * 1024) <=? n * 1) with true
    by (symmetry; apply Z.leb_le; lia).
  cbn [andb]. rewrite div_1024, ge_1024.
  destruct (Z.ltb_spec n (1024 ^ 3)) as [H3 | H3].
  { replace (1024 * Z.pos (1 * 1024 * 1024) <=? n * 1 * 1) with false
      by (symmetry; apply Z.leb_gt; lia). reflexivity. }
  replace (1024 * Z.pos (1 * 1024 * 1024) <=? n * 1 * 1) with true
    by (symmetry; apply Z.leb_le; lia).
  cbn [andb]. rewrite div_1024, andb_false_r. reflexivity.
Qed.

Lemma round_half_even_exact (x : Q) (t : Z) :
  Qnum x = t * Zpos (Qden x) -> round_half_even x = t.
Proof.
  intros E. unfold round_half_even. rewrite E.
  rewrite Z.div_mul, Z.mod_mul by lia. reflexivity.
Qed.

Lemma format_1f_whole (x : Q) (k : Z) :
  0 <= k -> Qnum x = k * Zpos (Qden x) ->
  format_1f x = (decimal k ++ ".0")%string.
Proof.
  intros Hk E. unfold format_1f.
  rewrite (round_half_even_exact (x * 10) (k * 10)).
  2:{ unfold Qmult. cbn [Qnum Qden]. rewrite E. lia. }
  replace (Qnum x <? 0) with false by (symmetry; apply Z.ltb_ge; rewrite E; lia).
  rewrite Z.abs_eq by lia. rewrite Z.div_mul, Z.mod_mul by lia. reflexivity.
Qed.

(** A whole number of a unit, in the model of [human_bytes]. *)
Lemma human_bytes_whole (k : Z) (i : nat) :
  (i <= 3)%nat -> 0 <= k -> ((0 < i)%nat -> 1 <= k) -> ((i < 3)%nat -> k < 1024) ->
  human_bytes (k * 1024 ^ Z.of_nat i) =
  ((decimal k ++ ".0") ++ " " ++ nth i units EmptyString)%string.
Proof.
  intros Hi Hk Hpos Hlt. unfold human_bytes.
  rewrite human_scaled_cases.
  destruct i as [| [| [| [| i]]]]; [| | | | lia].
  - change (1024 ^ Z.of_nat 0) with 1. rewrite Z.mul_1_r.
    replace (k <? 1024) with true by (symmetry; apply Z.ltb_lt; lia).
    rewrite (format_1f_whole _ k) by (cbn [Qnum Qden]; lia). reflexivity.
  - change (1024 ^ Z.of_nat 1) with 1024.
    replace (k * 1024 <? 1024) with false by (symmetry; apply Z.ltb_ge; lia).
    replace (k * 1024 <? 1024 ^ 2) with true by (symmetry; apply Z.ltb_lt; lia).
    rewrite (format_1f_whole _ k) by (cbn [Qnum Qden]; lia). reflexivity.
  - change (1024 ^ Z.of_nat 2) with 1048576.
    replace (k * 1048576 <? 1024) with false by (symmetry; apply Z.ltb_ge; lia).
    replace (k * 1048576 <? 1024 ^ 2) with false by (symmetry; apply Z.ltb_ge; lia).
    replace (k * 1048576 <? 1024 ^ 3) with true by (symmetry; apply Z.ltb_lt; lia).
    rewrite (format_1f_whole _ k) by (cbn [Qnum Qden]; lia). reflexivity.
  - change (1024 ^ Z.of_nat 3) with 1073741824.
    replace (k * 1073741824 <? 1024) with false by (symmetry; apply Z.ltb_ge; lia).
    replace (k * 1073741824 <? 1024 ^ 2) with false by (symmetry; apply Z.ltb_ge; lia).
    replace (k * 1073741824 <? 1024 ^ 3) with false by (symmetry; apply Z.ltb_ge; lia).
    rewrite (format_1f_whole _ k) by (cbn [Qnum Qden]; lia). reflexivity.
Qed.

End HumanFacts.

(** X1: for a byte count of at most 2^53 in absolute value, which
    [float] converts without rounding, [human_bytes] scales without loss
    and picks the unit by the thresholds: the value shown times 1024^unit
    is the byte count, the unit index is at most 3 (GB), a unit above B is
    used only from 1024^unit bytes on, and below GB the next threshold is
    not reached. *)
Theorem human_bytes_scaling (n : Z) :
  Z.abs n <= 2 ^ 53 ->
  let x := fst (human_scaled n) in
  let i := snd (human_scaled n) in
  (i <= 3)%nat /\
  (x * inject_Z (1024 ^ Z.of_nat i) == inject_Z n)%Q /\
  ((0 < i)%nat -> 1024 ^ Z.of_nat i <= n) /\
  ((i < 3)%nat -> n < 1024 ^ (Z.of_nat i + 1)).
Proof.
  intros _. cbv zeta. rewrite HumanFacts.human_scaled_cases.
  destruct (Z.ltb_spec n 1024) as [H | H];
    [| destruct (Z.ltb_spec n (1024 ^ 2)) as [H2 | H2];
       [| destruct (Z.ltb_spec n (1024 ^ 3)) as [H3 | H3]]];
    cbn [fst snd]; (split; [lia |]); (split; [| split; intros; cbn; lia]);
    unfold Qeq, Qmult, inject_Z; cbn [Qnum Qden]; cbn; lia.
Qed.

Lemma human_bytes_scaling_witness :
  Z.abs 1536 <= 2 ^ 53 /\
  snd (human_scaled 1536) = 1%nat /\
  (fst (human_scaled 1536) * inject_Z (1024 ^ Z.of_nat (snd (human_scaled 1536))) ==
   inject_Z 1536)%Q.
Proof.
  assert (H : Z.abs 1536 <= 2 ^ 53) by (vm_compute; discriminate).
  split; [exact H |]. split; [reflexivity |].
  destruct (human_bytes_scaling 1536 H) as (_ & E & _). exact E.
Defined.

(** X2: a whole number [k] of a unit is shown exactly, as [k.0] and the
    unit: [k] bytes below 1024, or [k] times 1024^i bytes with
    [1 <= k < 1024] for KB and MB and any [k >= 1] for GB, for a byte
    count of at most 2^53, which [float] converts without rounding. *)
Theorem human_bytes_whole_units (k : Z) (i : nat) :
  (i <= 3)%nat -> 0 <= k -> ((0 < i)%nat -> 1 <= k) -> ((i < 3)%nat -> k < 1024) ->
  k * 1024 ^ Z.of_nat i <= 2 ^ 53 ->
  human_bytes (k * 1024 ^ Z.of_nat i) =
  ((decimal k ++ ".0") ++ " " ++ nth i units EmptyString)%string.
Proof. intros Hi Hk Hpos Hlt _. apply HumanFacts.human_bytes_whole; assumption. Qed.

Lemma human_bytes_whole_units_witness :
  (2 <= 3)%nat /\ 0 <= 512 /\ 512 * 1024 ^ Z.of_nat 2 <= 2 ^ 53 /\
  human_bytes (512 * 1024 ^ Z.of_nat 2) =
  ((decimal 512 ++ ".0") ++ " " ++ nth 2 units EmptyString)%string.
Proof.
  assert (H : 512 * 1024 ^ Z.of_nat 2 <= 2 ^ 53) by (vm_compute; discriminate).
  split; [lia |]. split; [lia |]. split; [exact H |].
  apply (human_bytes_whole_units 512 2); (lia || exact H).
Defined.



(** ** [generate_sizes] *)

(** X4: for bounds below 2^47 bytes the sweep is empty exactly when the
    upper bound (after the floor of 1024) is below the power of two at or
    below the lower bound; bounds in the usual order always give at least
    one size. *)
Theorem generate_sizes_empty_iff (min_kb max_bytes : Z) :
  min_kb * 1024 < 2 ^ 47 -> max_bytes < 2 ^ 47 ->
  (generate_sizes min_kb max_bytes = [] <->
   Z.max 1024 max_bytes < 2 ^ int_log2 (Z.max 1024 (min_kb * 1024))) /\
  (Z.max 1024 (min_kb * 1024) <= Z.max 1024 max_bytes ->
   generate_sizes min_kb max_bytes <> []).
Proof.
  intros _ _.
  set (lo := Z.max 1024 (min_kb * 1024)). set (hi := Z.max 1024 max_bytes).
  pose proof (SizeFacts.pow_min_ge_10 (min_kb * 1024)) as Hlo10. fold lo in Hlo10.
  assert (Hlt : hi < 2 ^ int_log2 lo <-> int_log2 hi < int_log2 lo).
  { unfold int_log2 in *. apply Z.log2_lt_pow2; unfold hi; lia. }
  assert (Hempty : generate_sizes min_kb max_bytes = [] <-> int_log2 hi < int_log2 lo).
  { unfold generate_sizes. cbv zeta. fold lo hi.
    rewrite PyRangeFacts.range2_closed.
    destruct (Z.to_nat (int_log2 hi + 1 - int_log2 lo)) eqn:E; cbn [seq map].
    - split; [lia | reflexivity].
    - split; [discriminate | lia]. }
  split.
  - rewrite Hempty, Hlt. reflexivity.
  - intros Hle Hnil. apply Hempty in Hnil.
    assert (int_log2 lo <= int_log2 hi)
      by (unfold int_log2; apply Z.log2_le_mono; exact Hle).
    lia.
Qed.

Lemma generate_sizes_empty_iff_witness :
  4096 * 1024 < 2 ^ 47 /\ 2 * 1024 * 1024 < 2 ^ 47 /\
  (generate_sizes 4096 (2 * 1024 * 1024) = [] <->
   Z.max 1024 (2 * 1024 * 1024) < 2 ^ int_log2 (Z.max 1024 (4096 * 1024))).
Proof.
  assert (H1 : 4096 * 1024 < 2 ^ 47) by (vm_compute; reflexivity).
  assert (H2 : 2 * 1024 * 1024 < 2 ^ 47) by (vm_compute; reflexivity).
  split; [exact H1 |]. split; [exact H2 |].
  destruct (generate_sizes_empty_iff 4096 (2 * 1024 * 1024) H1 H2) as (H & _). exact H.
Defined.

(** X5: for bounds below 2^47 bytes the sizes are strictly increasing
    powers of two, none above [max(1024, max_bytes)] and each more than
    half of [max(1024, min_bytes)]. *)
Theorem generate_sizes_shape (min_kb max_bytes : Z) :
  min_kb * 1024 < 2 ^ 47 -> max_bytes < 2 ^ 47 ->
  StronglySorted Z.lt (generate_sizes min_kb max_bytes) /\
  Forall (fun size =>
            (exists p, 0 <= p /\ size = 2 ^ p) /\
            size <= Z.max 1024 max_bytes /\
            Z.max 1024 (min_kb * 1024) < 2 * size)
    (generate_sizes min_kb max_bytes).
Proof.
  intros _ _. split; [apply SizeFacts.generate_sizes_increasing |].
  apply Forall_forall. intros size Hin.
  pose proof (SizeFacts.generate_sizes_upper _ _ _ Hin) as Hup.
  pose proof (SizeFacts.generate_sizes_lower _ _ _ Hin) as Hlow. cbv zeta in Hlow.
  apply SizeFacts.in_generate_sizes in Hin. destruct Hin as (p & Hp & ->).
  pose proof (SizeFacts.pow_min_ge_10 (min_kb * 1024)) as H10.
  split; [exists p; split; [lia | reflexivity] |]. split; [exact Hup |].
  destruct Hlow as (Hge & _ & Hlt).
  rewrite Z.pow_add_r in Hlt by lia. change (2 ^ 1) with 2 in Hlt. lia.
Qed.

Lemma generate_sizes_shape_witness :
  16 * 1024 < 2 ^ 47 /\ 65536 < 2 ^ 47 /\
  StronglySorted Z.lt (generate_sizes 16 65536) /\
  generate_sizes 16 65536 = [16384; 32768; 65536].
Proof.
  assert (H1 : 16 * 1024 < 2 ^ 47) by (vm_compute; reflexivity).
  assert (H2 : 65536 < 2 ^ 47) by (vm_compute; reflexivity).
  split; [exact H1 |]. split; [exact H2 |].
  destruct (generate_sizes_shape 16 65536 H1 H2) as (H & _).
  split; [exact H | vm_compute; reflexivity].
Defined.

(** X6: no power of two between the two bounds is left out of the
    sweep. *)
Theorem generate_sizes_covers (min_kb max_bytes p : Z) :
  Z.max 1024 (min_kb * 1024) <= 2 ^ p <= Z.max 1024 max_bytes ->
  In (2 ^ p) (generate_sizes min_kb max_bytes).
Proof.
  intros (Hlo & Hhi). apply SizeFacts.in_generate_sizes. exists p.
  split; [| reflexivity].
  assert (Hp : 0 <= p).
  { destruct (Z.lt_ge_cases p 0) as [Hneg | Hok]; [| exact Hok].
    rewrite Z.pow_neg_r in Hlo by exact Hneg. lia. }
  unfold int_log2.
  split; rewrite <- (Z.log2_pow2 p Hp); apply Z.log2_le_mono; assumption.
Qed.

Lemma generate_sizes_covers_witness :
  Z.max 1024 (16 * 1024) <= 2 ^ 15 <= Z.max 1024 65536 /\
  In (2 ^ 15) (generate_sizes 16 65536).
Proof.
  assert (H : Z.max 1024 (16 * 1024) <= 2 ^ 15 <= Z.max 1024 65536)
    by (vm_compute; split; discriminate).
  split; [exact H | exact (generate_sizes_covers 16 65536 15 H)].
Defined.

(** ** [statistics.median] *)

Module MedianOrderFacts.

Lemma sorted_nth (s : list Q) :
  StronglySorted Qle s ->
  forall i j, (i <= j < length s)%nat -> (nth i s 0 <= nth j s 0)%Q.
Proof.
  induction 1 as [| x s Hs IH Hx]; intros i j Hij; [cbn in Hij; lia |].
  destruct i as [| i], j as [| j]; cbn [nth]; cbn [length] in Hij.
  - apply Qle_refl.
  - rewrite Forall_forall in Hx. apply Hx, nth_In. lia.
  - lia.
  - apply IH. lia.
Qed.

Lemma filter_permutation {A} (f : A -> bool) (l l' : list A) :
  Permutation l l' -> Permutation (filter f l) (filter f l').
Proof.
  induction 1 as [| x l l' H IH | x y l | l l' l'' H1 IH1 H2 IH2]; cbn [filter].
  - constructor.
  - destruct (f x); [constructor |]; exact IH.
  - destruct (f x), (f y); try apply Permutation_refl. constructor.
  - eapply Permutation_trans; eassumption.
Qed.

(** In a sorted list, the elements up to position [k] pass any test that
    everything at most the [k]-th element passes. *)
Lemma count_prefix (f : Q -> bool) (s : list Q) (k : nat) :
  (k < length s)%nat ->
  (forall i, (i <= k)%nat -> f (nth i s 0%Q) = true) ->
  (k + 1 <= length (filter f s))%nat.
Proof.
  intros Hk Hf. rewrite <- (firstn_skipn (S k) s), filter_app, length_app.
  assert (E : filter f (firstn (S k) s) = firstn (S k) s).
  { apply SizeFacts.filter_all. intros x Hx.
    destruct (In_nth _ _ 0%Q Hx) as (i & Hi & <-).
    rewrite length_firstn in Hi. rewrite nth_firstn.
    replace (i <? S k)%nat with true by (symmetry; apply Nat.ltb_lt; lia).
    apply Hf. lia. }
  rewrite E, length_firstn. lia.
Qed.

Lemma count_suffix (f : Q -> bool) (s : list Q) (k : nat) :
  (k <= length s)%nat ->
  (forall i, (k <= i < length s)%nat -> f (nth i s 0%Q) = true) ->
  (length s - k <= length (filter f s))%nat.
Proof.
  intros Hk Hf. rewrite <- (firstn_skipn k s) at 2. rewrite filter_app, length_app.
  assert (E : filter f (skipn k s) = skipn k s).
  { apply SizeFacts.filter_all. intros x Hx.
    destruct (In_nth _ _ 0%Q Hx) as (i & Hi & <-).
    rewrite length_skipn in Hi. rewrite nth_skipn. apply Hf. lia. }
  rewrite E, length_skipn. lia.
Qed.

End MedianOrderFacts.

(** X7: the median lies within any bounds that hold for all the samples,
    so it is never below the fastest nor above the slowest repeat. *)
Theorem median_value_between (l : list Q) (m lo hi : Q) :
  median_value l = Some m ->
  Forall (fun x => lo <= x <= hi)%Q l ->
  (lo <= m <= hi)%Q.
Proof.
  intros Hm Hb. apply MedianFacts.median_value_spec in Hm.
  destruct Hm as (s & Hp & _ & Hmid). cbv zeta in Hmid.
  assert (Hin : forall x, In x s -> (lo <= x <= hi)%Q).
  { intros x Hx. rewrite Forall_forall in Hb. apply Hb.
    eapply Permutation_in; [apply Permutation_sym, Hp | exact Hx]. }
  destruct (Nat.odd (length s)).
  - apply Hin. eapply nth_error_In, Hmid.
  - destruct Hmid as (a & b & Ha & Hb' & E).
    apply nth_error_In, Hin in Ha. apply nth_error_In, Hin in Hb'.
    assert (E2 : (m == (a + b) * (1 # 2))%Q) by (rewrite E; reflexivity).
    split; lra.
Qed.

Lemma median_value_between_witness :
  median_value [3; 1; 2]%Q = Some 2%Q /\ (1 <= 2 <= 3)%Q.
Proof.
  assert (H : median_value [3; 1; 2]%Q = Some 2%Q) by (vm_compute; reflexivity).
  split; [exact H |].
  apply (median_value_between [3; 1; 2]%Q 2%Q 1%Q 3%Q H).
  repeat constructor; vm_compute; discriminate.
Defined.

(** X8: the median splits the samples: at least half of them are at most
    the median and at least half are at least the median. *)
Theorem median_value_splits (l : list Q) (m : Q) :
  median_value l = Some m ->
  (length l <= 2 * length (filter (fun x => Qle_bool x m) l))%nat /\
  (length l <= 2 * length (filter (fun x => Qle_bool m x) l))%nat.
Proof.
  intros Hm. apply MedianFacts.median_value_spec in Hm.
  destruct Hm as (s & Hp & Hs & Hmid). cbv zeta in Hmid.
  rewrite (Permutation_length Hp),
    (Permutation_length (MedianOrderFacts.filter_permutation
                           (fun x => Qle_bool x m) l s Hp)),
    (Permutation_length (MedianOrderFacts.filter_permutation
                           (fun x => Qle_bool m x) l s Hp)).
  pose proof (Nat.div_mod_eq (length s) 2) as Hdm.
  pose proof (Nat.mod_upper_bound (length s) 2 ltac:(lia)) as Hmb.
  set (k := (length s / 2)%nat) in *.
  destruct (Nat.odd (length s)) eqn:Eo.
  - apply Nat.odd_spec in Eo. destruct Eo as (k' & Ek').
    assert (Hk : (k < length s)%nat) by (apply nth_error_Some; rewrite Hmid; discriminate).
    assert (Em : nth k s 0%Q = m) by (apply nth_error_nth, Hmid).
    split.
    + assert (k + 1 <= length (filter (fun x => Qle_bool x m) s))%nat; [| lia].
      apply MedianOrderFacts.count_prefix; [exact Hk |].
      intros i Hi. apply Qle_bool_iff. rewrite <- Em.
      apply MedianOrderFacts.sorted_nth; [exact Hs | lia].
    + assert (length s - k <= length (filter (fun x => Qle_bool m x) s))%nat; [| lia].
      apply MedianOrderFacts.count_suffix; [lia |].
      intros i Hi. apply Qle_bool_iff. rewrite <- Em.
      apply MedianOrderFacts.sorted_nth; [exact Hs | lia].
  - destruct Hmid as (a & b & Ha & Hb & E).
    assert (Ev : Nat.even (length s) = true) by (rewrite <- Nat.negb_odd, Eo; reflexivity).
    apply Nat.even_spec in Ev. destruct Ev as (k' & Ek').
    assert (Hk : (k < length s)%nat) by (apply nth_error_Some; rewrite Hb; discriminate).
    assert (Ea : nth (k - 1) s 0%Q = a) by (apply nth_error_nth, Ha).
    assert (Eb : nth k s 0%Q = b) by (apply nth_error_nth, Hb).
    assert (Hab : (a <= b)%Q).
    { rewrite <- Ea, <- Eb. apply MedianOrderFacts.sorted_nth; [exact Hs | lia]. }
    assert (E2 : (m == (a + b) * (1 # 2))%Q) by (rewrite E; reflexivity).
    split.
    + assert (k - 1 + 1 <= length (filter (fun x => Qle_bool x m) s))%nat; [| lia].
      apply MedianOrderFacts.count_prefix; [lia |].
      intros i Hi. apply Qle_bool_iff.
      apply Qle_trans with a; [| lra].
      rewrite <- Ea. apply MedianOrderFacts.sorted_nth; [exact Hs | lia].
    + assert (length s - k <= length (filter (fun x => Qle_bool m x) s))%nat; [| lia].
      apply MedianOrderFacts.count_suffix; [lia |].
      intros i Hi. apply Qle_bool_iff.
      apply Qle_trans with b; [lra |].
      rewrite <- Eb. apply MedianOrderFacts.sorted_nth; [exact Hs | lia].
Qed.

Lemma median_value_splits_witness :
  median_value [5; 1; 4; 2]%Q = Some 3%Q /\
  (4 <= 2 * length (filter (fun x => Qle_bool x 3) [5; 1; 4; 2]%Q))%nat.
Proof.
  assert (H : median_value [5; 1; 4; 2]%Q = Some 3%Q) by (vm_compute; reflexivity).
  split; [exact H |].
  apply (median_value_splits [5; 1; 4; 2]%Q 3%Q H).
Defined.

(** X9: with an odd number of samples the median is one of the samples:
    the value reported for the default of 3 repeats is a value that was
    measured. *)
Theorem median_value_is_sample (l : list Q) (m : Q) :
  median_value l = Some m -> Nat.odd (length l) = true -> In m l.
Proof.
  intros Hm Ho. apply MedianFacts.median_value_spec in Hm.
  destruct Hm as (s & Hp & _ & Hmid). cbv zeta in Hmid.
  rewrite (Permutation_length Hp) in Ho. rewrite Ho in Hmid.
  eapply Permutation_in; [apply Permutation_sym, Hp |].
  eapply nth_error_In, Hmid.
Qed.

Lemma median_value_is_sample_witness :
  median_value [3; 1; 2]%Q = Some 2%Q /\ In 2%Q [3; 1; 2]%Q.
Proof.
  assert (H : median_value [3; 1; 2]%Q = Some 2%Q) by (vm_compute; reflexivity).
  split; [exact H |].
  apply (median_value_is_sample [3; 1; 2]%Q 2%Q H). reflexivity.
Defined.

(** ** The measurement functions *)

Section MeasureEdgeFacts.

Variable env : Env.

Lemma total_accesses_pos n stride min_acc : 1 <= total_accesses n stride min_acc.
Proof.
  unfold total_accesses. cbv zeta.
  pose proof (accesses_per_loop_pos n stride).
  pose proof (loops_for_pos min_acc (accesses_per_loop n stride)). nia.
Qed.

Lemma sample_at_nonneg total c :
  clock env c <= clock env (S c) -> 1 <= total -> (0 <= sample_at env total c)%Q.
Proof.
  intros Hc Ht. unfold sample_at. rewrite Qred_correct. unfold Qdiv.
  apply Qmult_le_0_compat.
  - unfold Qle, inject_Z. cbn [Qnum Qden]. lia.
  - apply Qinv_le_0_compat. unfold Qle, inject_Z. cbn [Qnum Qden]. lia.
Qed.

Lemma median_value_lower (l : list Q) (m lo : Q) :
  median_value l = Some m -> Forall (fun x => lo <= x)%Q l -> (lo <= m)%Q.
Proof.
  intros Hm Hb. apply MedianFacts.median_value_spec in Hm.
  destruct Hm as (s & Hp & _ & Hmid). cbv zeta in Hmid.
  assert (Hin : forall x, In x s -> (lo <= x)%Q).
  { intros x Hx. rewrite Forall_forall in Hb. apply Hb.
    eapply Permutation_in; [apply Permutation_sym, Hp | exact Hx]. }
  destruct (Nat.odd (length s)).
  - apply Hin. eapply nth_error_In, Hmid.
  - destruct Hmid as (a & b & Ha & Hb' & E).
    apply nth_error_In, Hin in Ha. apply nth_error_In, Hin in Hb'.
    assert (E2 : (m == (a + b) * (1 # 2))%Q) by (rewrite E; reflexivity).
    lra.
Qed.

(** A walk over no element at all. *)
Lemma walk_nothing data n stride s w :
  0 < stride -> n <= 0 -> walk data n stride s w = (Ok s, w).
Proof.
  intros Hs Hn. unfold walk, PyRange.range3.
  destruct (stride =? 0) eqn:E0; [apply Z.eqb_eq in E0; lia |].
  destruct (0 <? stride) eqn:E1; [| apply Z.ltb_ge in E1; lia].
  replace (Z.to_nat (n - 0)) with O by lia. reflexivity.
Qed.

Lemma for_fold_nothing {A} (l : list A) (body : Z -> M Z) :
  (forall s w, body s w = (Ok s, w)) ->
  forall s w, for_fold l (fun _ s => body s) s w = (Ok s, w).
Proof.
  intros Hb. induction l as [| a l IH]; intros s w; [reflexivity |].
  cbn [for_fold]. unfold bind. rewrite Hb. apply IH.
Qed.

Lemma measure_on_nothing data n stride min_acc warm w :
  0 < stride -> n <= 0 ->
  measure_on env data n stride min_acc warm w =
  (Ok (sample_at env (Z.max 1 min_acc) (clock_pos w)),
   {| clock_pos := 2 + clock_pos w; allocs := allocs w; reads := reads w;
      calls := calls w; stdout := stdout w; stderr := stderr w |}).
Proof.
  intros Hs Hn.
  assert (Hq : (n + stride - 1) / stride <= 0).
  { assert ((n + stride - 1) / stride < 1) by (apply Z.div_lt_upper_bound; lia). lia. }
  unfold measure_on. unfold bind at 1.
  replace ((if warm then walk data n stride 0 else ret 0) w) with (Ok 0, w)
    by (destruct warm; [rewrite walk_nothing by assumption |]; reflexivity).
  unfold bind at 1. rewrite floordiv_ok by lia.
  replace (Z.max 1 ((n + stride - 1) / stride)) with 1 by lia.
  unfold bind at 1. rewrite floordiv_ok by lia.
  replace (min_acc + 1 - 1) with min_acc by ring. rewrite Z.div_1_r.
  unfold bind at 1. unfold perf_counter_ns at 1.
  unfold bind at 1. unfold timed_loops.
  rewrite for_fold_nothing by (intros s0 w0; apply walk_nothing; assumption).
  unfold bind at 1. unfold perf_counter_ns at 1.
  unfold bind at 1. cbn [Z.eqb]. unfold ret at 1.
  rewrite truediv_ok by lia. unfold sample_at. cbn [clock_pos].
  rewrite Z.mul_1_r. reflexivity.
Qed.

End MeasureEdgeFacts.

(** X10: with a clock that never runs backwards a measurement on valid
    input returns a non-negative time per access, on the array as on the
    list, and so is the median that a [try] block reports. *)
Theorem samples_are_nonnegative env args n stride min_acc warm w :
  (forall i, clock env i <= clock env (S i)) ->
  0 < stride -> 1 <= n -> 1 <= repeats args ->
  can_alloc env ArrayQ n = true -> can_alloc env PyList n = true ->
  (exists q w', measure_stride_reads_array env n stride min_acc warm w = (Ok q, w') /\
                (0 <= q)%Q) /\
  (exists q w', measure_stride_reads_list env n stride min_acc warm w = (Ok q, w') /\
                (0 <= q)%Q) /\
  (exists m w', array_block env args stride n w = (Ok (Some (Val m)), w') /\ (0 <= m)%Q) /\
  (exists m w', list_block env args stride n w = (Ok (Some (Val m)), w') /\ (0 <= m)%Q).
Proof.
  intros Hclock Hs Hn Hr Ha Hl.
  assert (Hblock : forall c,
    can_alloc env (call_kind c) (call_num_elements c) = true ->
    exists m, block_value env c (repeats args) w = Val m /\ (0 <= m)%Q).
  { intros c Hc. unfold block_value.
    rewrite (block_run_can_alloc env c (repeats args) w Hc), Nat.eqb_refl.
    set (samples := samples_from env _ _ _).
    destruct (MedianFacts.median_value_nonempty samples) as (m & Hm).
    { unfold samples, samples_from. destruct (Z.to_nat (repeats args)) eqn:E;
        [lia | discriminate]. }
    exists m. unfold the_median. rewrite Hm. split; [reflexivity |].
    apply (median_value_lower samples m 0%Q Hm).
    apply Forall_forall. intros x Hx. unfold samples, samples_from in Hx.
    apply in_map_iff in Hx. destruct Hx as (i & <- & _).
    apply sample_at_nonneg; [apply Hclock | apply total_accesses_pos]. }
  split; [| split; [| split]].
  - rewrite measure_stride_reads_array_ok by assumption.
    do 2 eexists. split; [reflexivity |].
    apply sample_at_nonneg; [apply Hclock | apply total_accesses_pos].
  - rewrite measure_stride_reads_list_ok by assumption.
    do 2 eexists. split; [reflexivity |].
    apply sample_at_nonneg; [apply Hclock | apply total_accesses_pos].
  - rewrite array_block_eq
      by (assumption || apply (can_alloc_granted env ArrayQ n O Ha)).
    destruct (Hblock (array_call args stride n) Ha) as (m & Em & Hm).
    rewrite Em. exists m. eexists. split; [reflexivity | exact Hm].
  - rewrite list_block_eq
      by (assumption || apply (can_alloc_granted env PyList n O Hl)).
    destruct (Hblock (list_call args stride n) Hl) as (m & Em & Hm).
    rewrite Em. exists m. eexists. split; [reflexivity | exact Hm].
Qed.

Lemma samples_are_nonnegative_witness :
  (forall i, clock small_env i <= clock small_env (S i)) /\
  exists q w',
    measure_stride_reads_array small_env 128 8 100 true fresh_world = (Ok q, w') /\
    (0 <= q)%Q.
Proof.
  assert (Hc : forall i, clock small_env i <= clock small_env (S i))
    by (intros i; cbn [clock small_env]; nia).
  split; [exact Hc |].
  apply (samples_are_nonnegative small_env small_args 128 8 100 true fresh_world Hc);
    try lia; try reflexivity.
  vm_compute. discriminate.
Defined.



(** X12: a stride of zero elements makes a measurement raise before any
    clock reading: [ValueError] from [range] when the warm-up runs,
    [ZeroDivisionError] from the access count otherwise. *)
Theorem zero_stride_raises env n min_acc w :
  can_alloc env ArrayQ n = true -> can_alloc env PyList n = true ->
  measure_stride_reads_array env n 0 min_acc true w =
    (Raise ValueError, entered (Call ArrayQ n 0 min_acc true) w) /\
  measure_stride_reads_array env n 0 min_acc false w =
    (Raise ZeroDivisionError, entered (Call ArrayQ n 0 min_acc false) w) /\
  measure_stride_reads_list env n 0 min_acc true w =
    (Raise ValueError, entered (Call PyList n 0 min_acc true) w) /\
  measure_stride_reads_list env n 0 min_acc false w =
    (Raise ZeroDivisionError, entered (Call PyList n 0 min_acc false) w).
Proof.
  intros Ha Hl.
  destruct (can_alloc_granted env ArrayQ n (allocs w) Ha) as (Fa & Ga).
  destruct (can_alloc_granted env PyList n (allocs w) Hl) as (Fl & Gl).
  unfold measure_stride_reads_array, measure_stride_reads_list, new_array, new_list.
  repeat split; rewrite <- bind_assoc; unfold bind at 1;
    rewrite enter_allocate, ?Fa, ?Ga, ?Fl, ?Gl; reflexivity.
Qed.

Lemma zero_stride_raises_witness :
  can_alloc small_env ArrayQ 128 = true /\
  measure_stride_reads_array small_env 128 0 100 true fresh_world =
    (Raise ValueError, entered (Call ArrayQ 128 0 100 true) fresh_world).
Proof.
  split; [reflexivity |].
  apply (zero_stride_raises small_env 128 100 fresh_world); reflexivity.
Defined.

Lemma measure_stride_reads_array_nothing env n stride min_acc warm w :
  0 < stride -> n <= 0 -> can_alloc env ArrayQ n = true ->
  measure_stride_reads_array env n stride min_acc warm w =
  (Ok (sample_at env (Z.max 1 min_acc) (clock_pos w)),
   measured 1 (Call ArrayQ n stride min_acc warm) 0 w).
Proof.
  intros Hs Hn Ha.
  destruct (can_alloc_granted env ArrayQ n (allocs w) Ha) as (Hf & Hg).
  unfold measure_stride_reads_array, new_array.
  rewrite <- bind_assoc. unfold bind at 1. rewrite enter_allocate, Hf, Hg.
  cbn [negb]. rewrite measure_on_nothing by assumption.
  unfold measured, entered. cbn [clock_pos allocs reads calls stdout stderr repeat].
  do 2 f_equal. lia.
Qed.

Lemma measure_stride_reads_list_nothing env n stride min_acc warm w :
  0 < stride -> n <= 0 -> can_alloc env PyList n = true ->
  measure_stride_reads_list env n stride min_acc warm w =
  (Ok (sample_at env (Z.max 1 min_acc) (clock_pos w)),
   measured 1 (Call PyList n stride min_acc warm) 0 w).
Proof.
  intros Hs Hn Ha.
  destruct (can_alloc_granted env PyList n (allocs w) Ha) as (Hf & Hg).
  unfold measure_stride_reads_list, new_list.
  rewrite <- bind_assoc. unfold bind at 1. rewrite enter_allocate, Hf, Hg.
  cbn [negb]. rewrite measure_on_nothing by assumption.
  unfold measured, entered. cbn [clock_pos allocs reads calls stdout stderr repeat].
  do 2 f_equal. lia.
Qed.

(** X13: on an empty buffer ([num_elements <= 0]) a measurement reads
    nothing and still returns: the elapsed time over
    [max(1, min_accesses)], the access count being floored at 1. *)
Theorem empty_buffer_is_measured env n stride min_acc warm w :
  0 < stride -> n <= 0 ->
  can_alloc env ArrayQ n = true -> can_alloc env PyList n = true ->
  let a := measure_stride_reads_array env n stride min_acc warm w in
  let l := measure_stride_reads_list env n stride min_acc warm w in
  fst a = Ok (sample_at env (Z.max 1 min_acc) (clock_pos w)) /\ reads (snd a) = reads w /\
  fst l = Ok (sample_at env (Z.max 1 min_acc) (clock_pos w)) /\ reads (snd l) = reads w.
Proof.
  intros Hs Hn Ha Hl. cbv zeta.
  rewrite measure_stride_reads_array_nothing, measure_stride_reads_list_nothing
    by assumption.
  unfold measured. cbn [fst snd reads]. repeat split; lia.
Qed.

Lemma empty_buffer_is_measured_witness :
  0 < 8 /\ 0 <= 0 /\
  reads (snd (measure_stride_reads_array small_env 0 8 100 true fresh_world)) =
  reads fresh_world.
Proof.
  split; [lia |]. split; [lia |].
  apply (empty_buffer_is_measured small_env 0 8 100 true fresh_world); try lia; reflexivity.
Defined.

(** ** [main] *)

Section MainFacts.

Variable env : Env.

Lemma some_kind_enabled args : use_array_of args || use_list_of args = true.
Proof.
  unfold use_array_of, use_list_of, neither_chosen.
  destruct (use_list args), (use_array args); reflexivity.
Qed.

Lemma median_of_repeats_no_repeats (measure : M Q) n w :
  n <= 0 -> median_of_repeats n measure w = (Raise StatisticsError, w).
Proof.
  intros Hn. unfold median_of_repeats. rewrite PyRangeFacts.range2_closed.
  replace (Z.to_nat (n - 0)) with O by lia. reflexivity.
Qed.

Lemma sweep_body_no_repeats ua ul args stride size w :
  repeats args <= 0 -> 8 <= size / element_size -> ua || ul = true ->
  sweep_body env ua ul args stride size w = (Raise StatisticsError, w).
Proof.
  intros Hr Hn Hu. unfold sweep_body.
  replace (Z.max 1 (size / element_size) <? 8) with false
    by (symmetry; apply Z.ltb_ge; lia).
  unfold bind at 1. destruct ua.
  - unfold array_block, try_except_MemoryError.
    rewrite median_of_repeats_no_repeats by exact Hr. reflexivity.
  - destruct ul; [| discriminate]. unfold ret at 1. unfold bind at 1.
    unfold list_block, try_except_MemoryError.
    rewrite median_of_repeats_no_repeats by exact Hr. reflexivity.
Qed.

Lemma sizes_have_8_elements min_kb max_bytes size :
  In size (generate_sizes min_kb max_bytes) -> 128 <= size / element_size.
Proof.
  intros Hin. apply SizeFacts.in_generate_sizes in Hin. destruct Hin as (p & Hp & ->).
  pose proof (SizeFacts.pow_min_ge_10 (min_kb * 1024)) as H10.
  apply SizeFacts.pow2_from_10. lia.
Qed.

(** Without repeats there is no sample to take the median of. *)
Lemma main_no_repeats args w :
  repeats args <= 0 ->
  main env args w =
  (match generate_sizes (min_kb args) (max_bytes_of args) with
   | [] => Ok 0
   | _ :: _ => Raise StatisticsError
   end,
   printed (Header (header_cols (csv args) (use_array_of args) (use_list_of args))) w).
Proof.
  intros Hr. unfold main. unfold bind at 1. unfold print_stdout at 1.
  fold (printed (Header (header_cols (csv args) (use_array_of args) (use_list_of args))) w).
  pose proof (sizes_have_8_elements (min_kb args) (max_bytes_of args)) as Hsz.
  destruct (generate_sizes (min_kb args) (max_bytes_of args)) as [| size sizes].
  - reflexivity.
  - unfold bind at 1. unfold sweep. cbn [for_fold]. unfold bind at 1.
    rewrite sweep_body_no_repeats; [reflexivity | exact Hr | | apply some_kind_enabled].
    specialize (Hsz size (or_introl eq_refl)). lia.
Qed.



(** The lines of a sweep: one row per unskipped size, a cell being present
    exactly for an enabled kind and holding the outcome of its block. *)
Lemma rows_sweep_end ua ul args stride sizes : forall w,
  exists out,
    stdout (sweep_end env ua ul args stride sizes w) = stdout w ++ out /\
    Forall (fun l => exists size w0 w1,
              l = Row size
                    (if ua then Some (block_value env
                                        (array_call args stride (size / element_size))
                                        (repeats args) w0) else None)
                    (if ul then Some (block_value env
                                        (list_call args stride (size / element_size))
                                        (repeats args) w1) else None))
      out.
Proof.
  unfold sweep_end. induction sizes as [| size sizes IH]; intros w.
  - exists []. cbn. rewrite app_nil_r. auto.
  - cbn [fold_left]. destruct (size / element_size <? 8); [apply IH |].
    destruct (IH (body_end env ua ul args stride size w)) as (out & Ho & Hf).
    eexists (_ :: out). split.
    + rewrite Ho. unfold body_end at 1. cbn [printed stdout].
      rewrite <- app_assoc. cbn [app]. f_equal.
      destruct ua, ul; rewrite ?stdout_block_end; reflexivity.
    + constructor; [| exact Hf]. do 3 eexists. reflexivity.
Qed.

End MainFacts.

(** X14: with [--repeats 0] or less there is no sample to take a median
    of: on ordinary bounds, unless the sweep is empty, [main] prints the
    header and then fails with [StatisticsError], which the handler of
    [MemoryError] does not catch, before any measurement; on an empty
    sweep it returns 0. *)
Theorem no_repeats_raises env args w :
  repeats args <= 0 -> ordinary_run args ->
  main env args w =
  (match generate_sizes (min_kb args) (max_bytes_of args) with
   | [] => Ok 0
   | _ :: _ => Raise StatisticsError
   end,
   printed (Header (header_cols (csv args) (use_array_of args) (use_list_of args))) w).
Proof. intros Hr _. apply main_no_repeats, Hr. Qed.

Lemma no_repeats_raises_witness :
  repeats zero_repeats_args <= 0 /\ ordinary_run zero_repeats_args /\
  main small_env zero_repeats_args fresh_world =
  (Raise StatisticsError,
   printed (Header ["bytes"; "size"; "array_Q ns/access"; "list ns/access"]%string)
     fresh_world).
Proof.
  assert (Hr : repeats zero_repeats_args <= 0) by (vm_compute; discriminate).
  assert (Ho : ordinary_run zero_repeats_args).
  { split; [| split; vm_compute; auto].
    exists 1, (-16). split; [reflexivity |]. split; [lia | reflexivity]. }
  split; [exact Hr |]. split; [exact Ho |].
  rewrite (no_repeats_raises small_env zero_repeats_args fresh_world Hr Ho).
  vm_compute. reflexivity.
Defined.


Lemma row_sizes_length (out : list line) :
  Forall (fun l => exists s a b, l = Row s a b) out ->
  length (row_sizes out) = length out.
Proof.
  induction 1 as [| l out (s & a & b & ->) _ IH]; [reflexivity |].
  cbn [row_sizes flat_map app length]. fold (row_sizes out). rewrite IH. reflexivity.
Qed.

(** X16: the table of a run on ordinary bounds with a positive number of
    repeats is rectangular: the header has the two size columns and one
    column per enabled kind, at least one kind is enabled, and every size
    of the sweep gets a row with a cell exactly for the enabled kinds. *)
Theorem rows_match_header env args w :
  1 <= repeats args -> ordinary_run args ->
  let ua := use_array_of args in
  let ul := use_list_of args in
  ua || ul = true /\
  length (header_cols (csv args) ua ul) =
    (2 + (if ua then 1 else 0) + (if ul then 1 else 0))%nat /\
  exists out,
    stdout (snd (main env args w)) =
      stdout w ++ Header (header_cols (csv args) ua ul) :: out /\
    length out = length (generate_sizes (min_kb args) (max_bytes_of args)) /\
    Forall (fun l => match l with
                     | Row _ ca cl => (ca = None <-> ua = false) /\
                                      (cl = None <-> ul = false)
                     | Header _ => False
                     end) out.
Proof.
  intros Hr Hord. cbv zeta. split; [apply some_kind_enabled |]. split.
  { unfold header_cols. destruct (csv args), (use_array_of args), (use_list_of args);
      reflexivity. }
  rewrite main_eq by assumption. cbn [snd].
  match goal with
  | |- context [sweep_end env ?ua ?ul args ?stride ?sizes ?w0] =>
      destruct (rows_sweep_end env ua ul args stride sizes w0) as (out & Ho & Hrows);
      destruct (stdout_sweep_end env ua ul args stride sizes w0) as (out' & Ho' & Hsz)
  end.
  assert (out' = out) by (rewrite Ho in Ho'; apply app_inv_head in Ho'; congruence).
  subst out'. exists out. split; [| split].
  - rewrite Ho. cbn [printed stdout]. rewrite <- app_assoc. reflexivity.
  - rewrite SizeFacts.filter_all in Hsz.
    2:{ intros size Hin. pose proof (sizes_have_8_elements _ _ _ Hin).
        apply negb_true_iff, Z.ltb_ge. lia. }
    rewrite <- Hsz. symmetry. apply row_sizes_length.
    eapply Forall_impl; [| exact Hrows]. intros l (size & w0 & w1 & ->).
    do 3 eexists. reflexivity.
  - eapply Forall_impl; [| exact Hrows].
    intros l (size & w0 & w1 & ->).
    destruct (use_array_of args), (use_list_of args); repeat split; congruence.
Qed.

Lemma rows_match_header_witness :
  1 <= repeats small_args /\ ordinary_run small_args /\
  use_array_of small_args || use_list_of small_args = true /\
  length (header_cols (csv small_args) (use_array_of small_args) (use_list_of small_args))
  = 4%nat /\
  exists out,
    stdout (snd (main small_env small_args fresh_world)) =
      stdout fresh_world ++
      Header (header_cols (csv small_args) (use_array_of small_args)
                (use_list_of small_args)) :: out /\
    length out = 5%nat.
Proof.
  assert (Hr : 1 <= repeats small_args) by (vm_compute; discriminate).
  assert (Ho : ordinary_run small_args).
  { split; [| split; vm_compute; auto].
    exists 1, (-16). split; [reflexivity |]. split; [lia | reflexivity]. }
  split; [exact Hr |]. split; [exact Ho |].
  destruct (rows_match_header small_env small_args fresh_world Hr Ho)
    as (H1 & H2 & out & Hout & Hlen & _).
  split; [exact H1 |]. split; [exact H2 |].
  exists out. split; [exact Hout | exact Hlen].
Defined.



(** X18: the order of the measurements of a run on ordinary bounds with
    a positive number of repeats: the sizes in ascending order, at each
    size the array before the list, and per enabled buffer kind between
    one and [repeats] calls in a row (the calls that returned and, if a
    construction was refused, the one that raised), all [repeats] of them
    when the buffer can be built whenever it is asked for. *)
Theorem calls_of_a_run env args w :
  1 <= repeats args -> ordinary_run args ->
  exists counts : list (nat * nat),
    length counts = length (generate_sizes (min_kb args) (max_bytes_of args)) /\
    Forall (counts_ok (use_array_of args) (use_list_of args) (repeats args)) counts /\
    Forall (counts_full env (use_array_of args) (use_list_of args) (repeats args))
      (combine (generate_sizes (min_kb args) (max_bytes_of args)) counts) /\
    calls (snd (main env args w)) =
    calls w ++
    concat (map (calls_at args (stride_elems_of args))
              (combine (generate_sizes (min_kb args) (max_bytes_of args)) counts)).
Proof.
  intros Hr Ho. rewrite main_eq by assumption. cbn [snd].
  destruct (calls_sweep_end env (use_array_of args) (use_list_of args) args
              (stride_elems_of args) (generate_sizes (min_kb args) (max_bytes_of args))
              (printed (Header (header_cols (csv args) (use_array_of args)
                                  (use_list_of args))) w) Hr)
    as (counts & Hlen & Hok & Hfull & Hc).
  { apply Forall_forall. intros size Hin.
    pose proof (sizes_have_8_elements _ _ _ Hin). lia. }
  exists counts. split; [exact Hlen |]. split; [exact Hok |]. split; [exact Hfull |].
  exact Hc.
Qed.

Lemma calls_of_a_run_witness :
  1 <= repeats small_args /\ ordinary_run small_args /\
  exists counts : list (nat * nat),
    Forall (counts_ok true true 3) counts /\
    calls (snd (main small_env small_args fresh_world)) =
    concat (map (calls_at small_args 8) (combine [1024; 2048; 4096; 8192; 16384] counts)) /\
    length (calls (snd (main small_env small_args fresh_world))) = 22%nat.
Proof.
  assert (Hr : 1 <= repeats small_args) by (vm_compute; discriminate).
  assert (Ho : ordinary_run small_args).
  { split; [| split; vm_compute; auto].
    exists 1, (-16). split; [reflexivity |]. split; [lia | reflexivity]. }
  split; [exact Hr |]. split; [exact Ho |].
  destruct (calls_of_a_run small_env small_args fresh_world Hr Ho)
    as (counts & _ & Hok & _ & Hc).
  exists counts. split; [exact Hok |]. split; [exact Hc |].
  vm_compute. reflexivity.
Defined.

(** X19: the two ways to give the upper bound agree: for [m] of at most
    2^53 in absolute value, where [m/1024] and its products by 1024 are
    doubles, [--max-gb m/1024] sweeps up to the same byte count as
    [--max-mb m]. *)
Theorem max_gb_agrees_with_max_mb args args' (m : Z) :
  Z.abs m <= 2 ^ 53 ->
  max_gb args = Some (m # 1024) -> max_gb args' = None -> max_mb args' = m ->
  max_bytes_of args = max_bytes_of args' /\ max_bytes_of args = m * 1048576.
Proof.
  intros _ Hg Hn Hm. unfold max_bytes_of. rewrite Hg, Hn, Hm.
  unfold int_of_float, Qmult, inject_Z. cbn [Qnum Qden].
  change (Z.pos (1024 * 1 * 1 * 1)) with 1024.
  replace (m * 1024 * 1024 * 1024) with (m * 1048576 * 1024) by ring.
  rewrite Z.quot_mul by lia. split; lia.
Qed.

Lemma max_gb_agrees_with_max_mb_witness :
  Z.abs 512 <= 2 ^ 53 /\
  max_bytes_of
    {| min_kb := 16; max_mb := 0; max_gb := Some (512 # 1024)%Q; stride_bytes := 64;
       min_accesses := 100; repeats := 3; use_list := false; use_array := false;
       csv := false; warmup := true |} =
  max_bytes_of default_args.
Proof.
  assert (H : Z.abs 512 <= 2 ^ 53) by (vm_compute; discriminate).
  split; [exact H |].
  apply (max_gb_agrees_with_max_mb _ default_args 512 H); reflexivity.
Defined.



(** ** The [try] blocks *)

(** A loop over repeats whose calls all return collects their values. *)
Lemma loop_returns {A} (measure : M Q) w xs wj :
  produces measure w xs wj ->
  forall (l : list A) samples, length xs = length l ->
    for_fold l (fun _ samples => x <- measure ;; ret (samples ++ [x])) samples w =
    (Ok (samples ++ xs), wj).
Proof.
  intros Hp. induction Hp as [w | w x w1 xs w2 Hm Hp IH]; intros l samples Hl.
  - destruct l as [| a l]; [| discriminate]. cbn [for_fold]. rewrite app_nil_r.
    reflexivity.
  - destruct l as [| a l]; [discriminate |].
    cbn [for_fold]. unfold bind at 1. unfold bind at 1. rewrite Hm. unfold ret at 1.
    rewrite IH by (cbn [length] in Hl; lia). rewrite <- app_assoc. reflexivity.
Qed.

Lemma median_of_repeats_returns (measure : M Q) n w xs wj :
  produces measure w xs wj -> 1 <= n -> Z.of_nat (length xs) = n ->
  exists m, median_of_repeats n measure w = (Ok (Some (Val m)), wj) /\ is_median xs m.
Proof.
  intros Hp Hn Hl. unfold median_of_repeats. unfold bind at 1.
  rewrite (loop_returns measure w xs wj Hp)
    by (rewrite PyRangeFacts.length_range2; lia).
  cbn [app]. destruct (MedianFacts.median_value_nonempty xs) as (m & Hm).
  { destruct xs; [cbn [length] in Hl; lia | discriminate]. }
  exists m. split.
  - unfold bind, median. rewrite Hm. reflexivity.
  - apply MedianFacts.median_value_spec, Hm.
Qed.

(** X21: whatever the allocator and the clock do, when the [repeats]
    calls of a [try] block all return, the block gives the statistical
    median of the values they returned and leaves the world of the last
    call: nothing but the calls themselves changes it. *)
Theorem returned_samples_give_median env args stride n w samples wj :
  1 <= repeats args -> Z.of_nat (length samples) = repeats args ->
  (produces (measure_stride_reads_array env n stride (min_accesses args) (warmup args))
     w samples wj ->
   exists m, array_block env args stride n w = (Ok (Some (Val m)), wj) /\
             is_median samples m) /\
  (produces (measure_stride_reads_list env n stride (min_accesses args / 10)
               (warmup args)) w samples wj ->
   exists m, list_block env args stride n w = (Ok (Some (Val m)), wj) /\
             is_median samples m).
Proof.
  intros Hr Hl. split; intros Hp;
    destruct (median_of_repeats_returns _ (repeats args) w samples wj Hp Hr Hl)
      as (m & E & Hm);
    exists m; (split; [| exact Hm]);
    unfold array_block, list_block, try_except_MemoryError; rewrite E; reflexivity.
Qed.

Lemma returned_samples_give_median_witness :
  1 <= repeats small_args /\
  exists x1 x2 x3 wj m,
    Z.of_nat (length [x1; x2; x3]) = repeats small_args /\
    produces (measure_stride_reads_list small_env 128 8 (min_accesses small_args / 10)
                (warmup small_args)) fresh_world [x1; x2; x3] wj /\
    list_block small_env small_args 8 128 fresh_world = (Ok (Some (Val m)), wj) /\
    is_median [x1; x2; x3] m.
Proof.
  assert (Hr : 1 <= repeats small_args) by (vm_compute; discriminate).
  split; [exact Hr |].
  set (measure := measure_stride_reads_list small_env 128 8 (min_accesses small_args / 10)
                    (warmup small_args)).
  set (value := fun r : result Q * World =>
                  match fst r with Ok x => x | Raise _ => 0%Q end).
  set (r1 := measure fresh_world). set (r2 := measure (snd r1)).
  set (r3 := measure (snd r2)).
  assert (Hp : produces measure fresh_world [value r1; value r2; value r3] (snd r3)).
  { econstructor; [vm_compute; reflexivity |].
    econstructor; [vm_compute; reflexivity |].
    econstructor; [vm_compute; reflexivity | constructor]. }
  assert (Hl : Z.of_nat (length [value r1; value r2; value r3]) = repeats small_args)
    by reflexivity.
  destruct (returned_samples_give_median small_env small_args 8 128 fresh_world
              [value r1; value r2; value r3] (snd r3) Hr Hl) as (_ & Hlist).
  destruct (Hlist Hp) as (m & E & Hm).
  exists (value r1), (value r2), (value r3), (snd r3), m.
  split; [exact Hl |]. split; [exact Hp |]. split; [exact E | exact Hm].
Defined.
